(** * Order-book reconciliation of the bitstamp websocket adapter

    A shallow embedding of the order-book part of the bitstamp streaming
    adapter (handleOrderBook, handleDelta, handleBidAsks, getCacheIndex,
    handleOrderBookSubscription, handleSubscriptionStatus, handleSubject,
    handleErrorMessage, handleMessage) and of the order-book assertions of
    test_order_book.php, together with the properties stated about them.

    JavaScript numbers that the code only compares or copies (nonces,
    timestamps, prices, sizes) are integers [Z]; a value that may be
    [undefined] is an [option]. Prices and sizes are exact fixed-point
    decimals, represented by their number of minimal units. *)

From Stdlib Require Import ZArith Lia Ascii String List Sorted.
From stdpp Require Import base option list sorting strings gmap.

Local Open Scope Z_scope.

(** ** JavaScript comparison on possibly-undefined integers *)

Module Js.

(** [a < b]: false as soon as one operand is [undefined] (it becomes NaN). *)
Definition lt (a b : option Z) : bool :=
  match a, b with
  | Some x, Some y => x <? y
  | _, _ => false
  end.

(** [a >= b]: false as soon as one operand is [undefined]. *)
Definition ge (a b : option Z) : bool :=
  match a, b with
  | Some x, Some y => y <=? x
  | _, _ => false
  end.

(** [a === b]: [undefined === undefined] holds. *)
Definition strict_eq (a b : option Z) : bool :=
  match a, b with
  | Some x, Some y => x =? y
  | None, None => true
  | _, _ => false
  end.

(** [a === b] on possibly-undefined strings. *)
Definition str_eq (a b : option string) : bool := bool_decide (a = b).

(** [s.split (sep)] for a one-character separator. *)
Fixpoint split (sep : ascii) (s : string) : list string :=
  match s with
  | EmptyString => [EmptyString]
  | String c rest =>
      if Ascii.eqb c sep then EmptyString :: split sep rest
      else match split sep rest with
           | [] => [String c EmptyString]
           | w :: ws => String c w :: ws
           end
  end.

(** [s.indexOf (key) > -1] *)
Definition contains (key s : string) : bool :=
  match String.index 0 key s with
  | Some _ => true
  | None => false
  end.

End Js.

(** ** Feed payloads *)

(** One raw price-level entry of the feed, e.g.
    [["8732.02", "0.00002478", "1207590500704256"]]: price, size, order id. *)
Definition RawBidAsk := list Z.

(** The "data" object of a feed message. Every field may be missing. A
    message without "data" behaves, for every accessor used here
    (safeInteger, safeValue, safeTimestamp, safeNumber), like one whose
    data has no field at all. *)
Record Delta := mkDelta {
  d_timestamp : option Z;        (* "timestamp", in seconds *)
  d_microtimestamp : option Z;   (* "microtimestamp", the nonce of the delta *)
  d_bids : option (list RawBidAsk);
  d_asks : option (list RawBidAsk);
  d_code : option Z              (* "code", only on bts:error messages *)
}.

Record Message := mkMessage {
  m_event : option string;
  m_channel : option string;
  m_data : Delta
}.

(** ** PriceLevelSide *)

Record PriceLevel := mkLevel {
  price : Z;
  size : Z;
  orderCount : option Z
}.

Inductive SideKind := Bids | Asks.

(** [precedes k p q]: price [p] comes strictly before price [q] in the
    canonical order of side [k] (descending bids, ascending asks). *)
Definition precedes (k : SideKind) (p q : Z) : bool :=
  match k with
  | Bids => q <? p
  | Asks => p <? q
  end.

(** Modelled from the spec: the book-side container (storeArray of the
    base order-book side class) is not among the sources. Section 3 and 4.1:
    an ordered mapping from price to size and optional count, kept in the
    canonical order of the side. *)
Record PriceLevelSide := mkSide {
  kind : SideKind;
  levels : list PriceLevel
}.

Definition emptySide (k : SideKind) : PriceLevelSide := mkSide k [].

(** Modelled from the spec: upsert of section 4.1. Inserts or replaces the
    level at [p]; a size of [0] deletes the level, and deleting a price that
    is not there changes nothing. *)
Fixpoint upsertLevels (k : SideKind) (p s : Z) (c : option Z)
    (ls : list PriceLevel) : list PriceLevel :=
  match ls with
  | [] => if s =? 0 then [] else [mkLevel p s c]
  | l :: rest =>
      if p =? price l then
        (if s =? 0 then rest else mkLevel p s c :: rest)
      else if precedes k p (price l) then
        (if s =? 0 then ls else mkLevel p s c :: ls)
      else l :: upsertLevels k p s c rest
  end.

Definition upsert (p s : Z) (c : option Z) (side : PriceLevelSide)
    : PriceLevelSide :=
  mkSide (kind side) (upsertLevels (kind side) p s c (levels side)).

(** Modelled from the spec: toSortedArray of section 4.1, the first [limit]
    entries in canonical order, all of them when [limit] is omitted. The
    side itself is not changed. *)
Definition toSortedArray (limit : option nat) (side : PriceLevelSide)
    : list PriceLevel :=
  match limit with
  | Some n => firstn n (levels side)
  | None => levels side
  end.

(** Modelled from the spec: normalizeLevel of section 6 (parseBidAsk of the
    base class is not among the sources): entry 0 is the price, entry 1 the
    size; either is undefined when the raw entry is too short. *)
Definition parseBidAsk (raw : RawBidAsk) : option Z * option Z :=
  (nth_error raw 0, nth_error raw 1).

(** Modelled from the spec: storeArray is upsert on a normalized entry;
    a malformed entry (no price or no size) is skipped and the others are
    kept (section 4.1, production default). *)
Definition storeArray (bidAsk : option Z * option Z) (side : PriceLevelSide)
    : PriceLevelSide :=
  match bidAsk with
  | (Some p, Some s) => upsert p s None side
  | _ => side
  end.

(** handleBidAsks: the entries of one message are stored in feed order. *)
Fixpoint handleBidAsks (bookSide : PriceLevelSide) (bidAsks : list RawBidAsk)
    : PriceLevelSide :=
  match bidAsks with
  | [] => bookSide
  | raw :: rest => handleBidAsks (storeArray (parseBidAsk raw) bookSide) rest
  end.

(** Level [a] is strictly before level [b] in the order of side [k]. *)
Definition before (k : SideKind) (a b : PriceLevel) : Prop :=
  precedes k (price a) (price b) = true.

(** A sequence of upserts (price, size, count), applied in order. *)
Definition upserts (ups : list (Z * Z * option Z)) (side : PriceLevelSide)
    : PriceLevelSide :=
  foldl (λ sd u, upsert u.1.1 u.1.2 u.2 sd) side ups.

(** ** The stored order book and the exchange object *)

Record OrderBook := mkBook {
  bids : PriceLevelSide;
  asks : PriceLevelSide;
  timestamp : option Z;
  datetime : option string;
  nonce : option Z;
  cache : list Delta      (* deltas buffered until the snapshot is loaded *)
}.

(** Modelled from the spec: this.orderBook () of the base class is not among
    the sources. Section 3: the book is created empty when a market
    subscription begins, with no nonce, no timestamp and nothing buffered. *)
Definition orderBook : OrderBook :=
  mkBook (emptySide Bids) (emptySide Asks) None None None [].

(** storedOrderBook.cache.push (delta): the book is the same object, with
    one more buffered delta. *)
Definition cache_push (book : OrderBook) (delta : Delta) : OrderBook :=
  {| bids := bids book; asks := asks book;
     timestamp := timestamp book; datetime := datetime book;
     nonce := nonce book;
     cache := cache book ++ [delta] |}.

(** The order book returned by the REST endpoint (fetchOrderBook). *)
Record Snapshot := mkSnapshot {
  s_bids : list RawBidAsk;
  s_asks : list RawBidAsk;
  s_timestamp : option Z;
  s_nonce : option Z
}.

(** The part of [this] that the order-book handlers read and write:
    this.orderbooks, and this.options.watchOrderBook.snapshotDelay (a user
    may override or remove the value [6] that describe () installs). *)
Record Exchange := mkExchange {
  orderbooks : gmap string OrderBook;
  snapshotDelay : option Z
}.

(** options.watchOrderBook.snapshotDelay as describe () installs it. *)
Definition describe_snapshotDelay : Z := 6.

Definition set_orderbooks (f : gmap string OrderBook → gmap string OrderBook)
    (this : Exchange) : Exchange :=
  mkExchange (f (orderbooks this)) (snapshotDelay this).

(** this.handleOption ('watchOrderBook', 'snapshotDelay', default) *)
Definition handleOption (this : Exchange) (default : Z) : Z :=
  match snapshotDelay this with
  | Some v => v
  | None => default
  end.

(** ** Effects: what a handler does besides changing [this] *)

Inductive Event :=
  | Spawn_loadOrderBook (messageHash symbol : string)
      (* this.spawn (this.loadOrderBook, client, messageHash, symbol, ...) *)
  | Resolve (book : OrderBook) (messageHash : string).
      (* client.resolve (book, messageHash) *)

Inductive Error :=
  | TypeError              (* a property of undefined is read *)
  | AuthenticationError.   (* exceptions.exact ['4009'] *)

(** A handler runs on [this]; it returns or throws, and in both cases leaves
    a state and the events emitted so far. *)
Inductive Outcome (A : Type) :=
  | Returned (a : A) (this : Exchange) (log : list Event)
  | Thrown (e : Error) (this : Exchange) (log : list Event).
Arguments Returned {A} a this log.
Arguments Thrown {A} e this log.

Definition M (A : Type) : Type := Exchange → Outcome A.

Definition state_of {A} (o : Outcome A) : Exchange :=
  match o with
  | Returned _ this _ => this
  | Thrown _ this _ => this
  end.

Definition log_of {A} (o : Outcome A) : list Event :=
  match o with
  | Returned _ _ log => log
  | Thrown _ _ log => log
  end.

Definition returns {A} (o : Outcome A) : bool :=
  match o with
  | Returned _ _ _ => true
  | Thrown _ _ _ => false
  end.

#[global] Instance M_ret : MRet M := λ A a this, Returned a this [].

#[global] Instance M_bind : MBind M := λ A B k m this,
  match m this with
  | Returned a this1 log1 =>
      match k a this1 with
      | Returned b this2 log2 => Returned b this2 (log1 ++ log2)
      | Thrown e this2 log2 => Thrown e this2 (log1 ++ log2)
      end
  | Thrown e this1 log1 => Thrown e this1 log1
  end.

Definition throw {A} (e : Error) : M A := λ this, Thrown e this [].

(** A list of messages handled one after the other, in arrival order. A
    handler that throws ends the sequence: the exception leaves the handlers
    (where it goes from there is decided by the transport, which is not
    among the sources). *)
Fixpoint forEach (handler : Message → M unit) (messages : list Message)
    : M unit :=
  match messages with
  | [] => mret tt
  | message :: rest => handler message ;; forEach handler rest
  end.

(** ** GapBuffer: getCacheIndex *)

(** The loop of getCacheIndex from position [i] on; [rest] are the deltas
    from [i] to the end, so that running off the end returns deltas.length. *)
Fixpoint getCacheIndex_loop (nonce : option Z) (rest : list Delta) (i : Z)
    : Z :=
  match rest with
  | [] => i
  | delta :: rest' =>
      let deltaNonce := d_microtimestamp delta in
      if Js.strict_eq deltaNonce nonce then i + 1
      else getCacheIndex_loop nonce rest' (i + 1)
  end.

Definition getCacheIndex (orderbook : Snapshot) (deltas : list Delta) : Z :=
  let firstElement := deltas !! 0%nat in
  let firstElementNonce := firstElement ≫= d_microtimestamp in
  let nonce := s_nonce orderbook in
  if Js.lt nonce firstElementNonce then -1
  else getCacheIndex_loop nonce deltas 0.

(** Modelled from the spec: loadOrderBook, the base-class caller of
    getCacheIndex, is not among the sources. Section 4.3 and 4.4: reconcile
    either reports the failure result, here [None] for the result [-1], or
    gives the buffered deltas to replay on top of the snapshot in arrival
    order; the result of getCacheIndex is the index in the cache at which
    this replay starts. *)
Definition reconcile (orderbook : Snapshot) (deltas : list Delta)
    : option (list Delta) :=
  let index := getCacheIndex orderbook deltas in
  if index <? 0 then None else Some (skipn (Z.to_nat index) deltas).

(** The nonces of the buffered deltas, in arrival order. *)
Definition nonces (deltas : list Delta) : list (option Z) :=
  map d_microtimestamp deltas.

(** Delta [d] is newer than the snapshot nonce [n]. *)
Definition newer (n : Z) (d : Delta) : bool :=
  Js.lt (Some n) (d_microtimestamp d).

(** The buffered nonces are defined and strictly increasing. *)
Definition increasing (deltas : list Delta) : Prop :=
  StronglySorted (λ a b, Js.lt a b = true) (nonces deltas).

(** The first buffered delta is ahead of the snapshot: both nonces are
    defined and the snapshot nonce is strictly smaller. *)
Definition first_ahead (orderbook : Snapshot) (deltas : list Delta) : Prop :=
  ∃ n first f,
    s_nonce orderbook = Some n ∧ deltas !! 0%nat = Some first
    ∧ d_microtimestamp first = Some f ∧ n < f.

(** ** The handlers *)

Section Handlers.

(** Helpers of the base class that are not among the sources and whose
    results the handlers only pass on: the unified symbol of a market id
    (it depends on the loaded markets) and the ISO-8601 text of a
    timestamp. *)
Variable safeSymbol : option string → string.
Variable iso8601 : option Z → option string.

(** this.safeTimestamp (delta, 'timestamp'): seconds to milliseconds. *)
Definition safeTimestamp (seconds : option Z) : option Z :=
  (λ s, s * 1000) <$> seconds.

Definition handleDelta (orderbook : OrderBook) (delta : Delta) : OrderBook :=
  let storedBids := bids orderbook in
  let storedAsks := asks orderbook in
  let timestamp := safeTimestamp (d_timestamp delta) in
  let bids := default [] (d_bids delta) in
  let asks := default [] (d_asks delta) in
  {| bids := handleBidAsks storedBids bids;
     asks := handleBidAsks storedAsks asks;
     timestamp := timestamp;
     datetime := iso8601 timestamp;
     nonce := d_microtimestamp delta;
     cache := cache orderbook |}.

(** The market a channel names: [parts [3]] of the channel split at "_". *)
Definition symbolOfChannel (channel : string) : string :=
  let parts := Js.split "_"%char channel in
  let marketId := parts !! 3%nat in
  safeSymbol marketId.

Definition messageHashOf (symbol : string) : string :=
  String.append "orderbook:" symbol.

(** The market of a message, when it has a channel. *)
Definition symbolOf (message : Message) : option string :=
  symbolOfChannel <$> m_channel message.

(** [nonce] is undefined both when the stored book has no nonce and when
    there is no stored book; in the latter case reading
    storedOrderBook.cache throws. *)
Definition handleOrderBook (message : Message) : M unit := λ this,
  match m_channel message with
  | None => Thrown TypeError this []                (* channel.split *)
  | Some channel =>
      let symbol := symbolOfChannel channel in
      let storedOrderBook := orderbooks this !! symbol in
      let delta := m_data message in
      let deltaNonce := d_microtimestamp delta in
      let messageHash := messageHashOf symbol in
      match storedOrderBook with
      | None => Thrown TypeError this []            (* storedOrderBook.cache *)
      | Some book =>
          let nonce := nonce book in
          match nonce with
          | None =>
              let cacheLength := Z.of_nat (length (cache book)) in
              let snapshotDelay := handleOption this 6 in
              let spawned :=
                if cacheLength =? snapshotDelay
                then [Spawn_loadOrderBook messageHash symbol] else [] in
              let book' := cache_push book delta in
              Returned tt (set_orderbooks (insert symbol book') this) spawned
          | Some _ =>
              if Js.ge nonce deltaNonce then Returned tt this []
              else
                let book' := handleDelta book delta in
                Returned tt (set_orderbooks (insert symbol book') this)
                         [Resolve book' messageHash]
          end
      end
  end.

Definition handleOrderBookSubscription (message : Message) : M unit := λ this,
  match m_channel message with
  | None => Thrown TypeError this []                (* channel.split *)
  | Some channel =>
      let symbol := symbolOfChannel channel in
      Returned tt (set_orderbooks (insert symbol orderBook) this) []
  end.

Definition handleSubscriptionStatus (message : Message) : M unit := λ this,
  match m_channel message with
  | None => Thrown TypeError this []                (* channel.indexOf *)
  | Some channel =>
      if Js.contains "order_book" channel
      then handleOrderBookSubscription message this
      else Returned tt this []
  end.

(** The two other subjects; they do not belong to the order-book core. *)
Variable handleTrade : Message → M unit.
Variable handleOrders : Message → M unit.

Definition methods : list (string * (Message → M unit)) :=
  [ ("live_trades"%string, handleTrade);
    ("diff_order_book"%string, handleOrderBook);
    ("private-my_orders"%string, handleOrders) ].

Fixpoint handleSubject_loop (channel : string) (message : Message)
    (keys : list (string * (Message → M unit))) : M unit :=
  match keys with
  | [] => mret tt
  | (key, method) :: rest =>
      (if Js.contains key channel then method message else mret tt) ;;
      handleSubject_loop channel message rest
  end.

Definition handleSubject (message : Message) : M unit :=
  match m_channel message with
  | None =>
      (* Object.keys (methods) is not empty, so channel.indexOf throws *)
      throw TypeError
  | Some channel => handleSubject_loop channel message methods
  end.

(** exceptions.exact of describe (): only code 4009 has a class. *)
Definition exceptions_exact (code : Z) : option Error :=
  if code =? 4009 then Some AuthenticationError else None.

(** Returns the message, which is an object and therefore truthy. *)
Definition handleErrorMessage (message : Message) : M Message :=
  if Js.str_eq (m_event message) (Some "bts:error"%string) then
    match d_code (m_data message) ≫= exceptions_exact with
    | Some e => throw e
    | None => mret message
    end
  else mret message.

Definition handleMessage (message : Message) : M unit :=
  _ ← handleErrorMessage message;
  if Js.str_eq (m_event message)
       (Some "bts:subscription_succeeded"%string)
  then handleSubscriptionStatus message
  else handleSubject message.

End Handlers.

(** ** What consumers observe *)

(** Modelled from the spec: limitedView of section 4.2 (limit () of the base
    order-book class is not among the sources), what a consumer reads from a
    resolved book. *)
Record View := mkView {
  v_bids : list PriceLevel;
  v_asks : list PriceLevel;
  v_timestamp : option Z;
  v_datetime : option string;
  v_nonce : option Z
}.

Definition limitedView (limit : option nat) (book : OrderBook) : View :=
  mkView (toSortedArray limit (bids book)) (toSortedArray limit (asks book))
         (timestamp book) (datetime book) (nonce book).

(** The nonces of the views resolved under [messageHash], in the order in
    which they were resolved. *)
Definition resolved_nonces (messageHash : string) (log : list Event)
    : list (option Z) :=
  flat_map (λ ev,
    match ev with
    | Resolve book h =>
        if String.eqb h messageHash then [v_nonce (limitedView None book)]
        else []
    | Spawn_loadOrderBook _ _ => []
    end) log.

(** The later nonce [b] is not smaller than the earlier nonce [a]. *)
Definition no_regression (a b : option Z) : Prop := Js.lt b a = false.

(** The nonces that are defined, in the same order. *)
Definition defined (nonces : list (option Z)) : list Z := omap id nonces.

(** The nonce moves from [a] to [b] by an applied delta: a defined nonce
    grows strictly or becomes undefined (a delta without microtimestamp);
    an undefined nonce is never moved by a delta. *)
Definition advances (a b : option Z) : Prop :=
  match a, b with
  | Some x, Some y => x < y
  | Some _, None => True
  | None, _ => False
  end.

(** ** The order-book assertions of test_order_book.php *)

Module TestOrderBook.

(** The keys of [$skipped_properties] that the function looks at. *)
Record Skipped := mkSkipped {
  skip_bid : bool;
  skip_ask : bool;
  skip_compareToNextItem : bool;
  skip_compareToZero : bool;
  skip_spread : bool
}.

Definition nothing_skipped : Skipped :=
  mkSkipped false false false false false.

(** 'current bid should be > than the next one', over the whole loop. *)
Fixpoint bids_compareToNextItem (bids : list PriceLevel) : bool :=
  match bids with
  | current_bid :: rest =>
      match rest with
      | next_bid :: _ => price next_bid <? price current_bid
      | [] => true
      end && bids_compareToNextItem rest
  | [] => true
  end.

(** 'current ask should be < than the next one', over the whole loop. *)
Fixpoint asks_compareToNextItem (asks : list PriceLevel) : bool :=
  match asks with
  | current_ask :: rest =>
      match rest with
      | next_ask :: _ => price current_ask <? price next_ask
      | [] => true
      end && asks_compareToNextItem rest
  | [] => true
  end.

(** assert_greater on entries 0 and 1 of every level: price and volume
    are greater than zero. *)
Definition compareToZero (side : list PriceLevel) : bool :=
  forallb (λ l, (0 <? price l) && (0 <? size l)) side.

(** 'bids[0][0] should be < than asks[0][0]', asserted only when both
    sides have an entry. *)
Definition spread (bids asks : list PriceLevel) : bool :=
  match bids, asks with
  | first_bid :: _, first_ask :: _ => price first_bid <? price first_ask
  | _, _ => true
  end.

(** Whether every assertion on bids and asks passes. The assertions on
    the structure, the timestamp and the symbol come before and are made
    by helpers that are not among the sources. *)
Definition test_order_book (skipped : Skipped) (bids asks : list PriceLevel)
    : bool :=
  if skip_bid skipped || skip_ask skipped then true
  else
    (skip_compareToNextItem skipped || bids_compareToNextItem bids)
    && (skip_compareToZero skipped || compareToZero bids)
    && (skip_compareToNextItem skipped || asks_compareToNextItem asks)
    && (skip_compareToZero skipped || compareToZero asks)
    && (skip_spread skipped || spread bids asks).

End TestOrderBook.

(** ** Concrete markets and messages used in the scenarios *)

Module Scenario.

(** A market table in which every market id is its own symbol. *)
Definition safeSymbol (marketId : option string) : string :=
  default "undefined"%string marketId.

Definition iso8601 (t : option Z) : option string :=
  (λ _, "2020-03-08T08:40:00.000Z"%string) <$> t.

Definition delta (nonce : Z) (bids asks : list RawBidAsk) : Delta :=
  mkDelta (Some 1583656800) (Some nonce) (Some bids) (Some asks) None.

(** A delta that only carries a nonce. *)
Definition nonce_only (nonce : Z) : Delta := delta nonce [] [].

Definition diff (nonce : Z) (bids asks : list RawBidAsk) : Message :=
  mkMessage (Some "data"%string) (Some "diff_order_book_btcusd"%string)
            (delta nonce bids asks).

Definition subscription_succeeded : Message :=
  mkMessage (Some "bts:subscription_succeeded"%string)
            (Some "diff_order_book_btcusd"%string)
            (mkDelta None None None None None).

Definition exchange (books : gmap string OrderBook) : Exchange :=
  mkExchange books (Some describe_snapshotDelay).

(** The book after the snapshot of scenario 1. *)
Definition book10 : OrderBook :=
  mkBook (mkSide Bids [mkLevel 100 2 None]) (mkSide Asks [mkLevel 101 3 None])
         (Some 1583656799000) None (Some 10) [].

(** An exchange whose btcusd book is live at nonce 10. *)
Definition live : Exchange := exchange {[ "btcusd"%string := book10 ]}.

(** An exchange whose btcusd book has just been created. *)
Definition fresh : Exchange := exchange {[ "btcusd"%string := orderBook ]}.

(** [count] deltas for btcusd, with the nonces 1, 2, ... *)
Definition diffs (count : nat) : list Message :=
  map (λ i, diff (Z.of_nat i) [] []) (seq 1 count).

(** The other subjects, for an exchange that only watches order books. *)
Definition ignore (message : Message) : M unit := mret tt.

End Scenario.

(** The bound that section 4.3 of the specification asks of the buffer,
    read on the btcusd market of the exchange [Scenario.fresh]: whatever
    deltas arrive before a snapshot, either an error is raised or the buffer
    holds at most [cap] deltas. *)
Definition buffer_capped (cap : nat) : Prop :=
  ∀ messages : list Message,
    let outcome :=
      forEach (handleOrderBook Scenario.safeSymbol Scenario.iso8601)
              messages Scenario.fresh in
    returns outcome = false
    ∨ ∀ book,
        orderbooks (state_of outcome) !! "btcusd"%string = Some book →
        (length (cache book) ≤ cap)%nat.


(** ** Further definitions used by the properties of the remaining code *)


(** The order book of the format example of test_order_book, prices and
    sizes in thousandths. *)
Definition format_bids : list PriceLevel :=
  [mkLevel 1230 123 None; mkLevel 1220 543 None].
Definition format_asks : list PriceLevel :=
  [mkLevel 1240 453 None; mkLevel 1250 157 None].

(** [ev] is a snapshot request (spawned loadOrderBook) for [symbol]. *)
Definition is_request_for (symbol : string) (ev : Event) : bool :=
  match ev with
  | Spawn_loadOrderBook _ s => String.eqb s symbol
  | Resolve _ _ => false
  end.

(** The number of snapshot requests for [symbol] in a log. *)
Definition requests (symbol : string) (log : list Event) : nat :=
  length (List.filter (is_request_for symbol) log).

(** The number of deltas buffered for [symbol], when it has a book. *)
Definition held (this : Exchange) (symbol : string) : option Z :=
  (λ book, Z.of_nat (length (cache book))) <$> orderbooks this !! symbol.

(** [ev] concerns the market [symbol]: it is a snapshot request for it or a
    resolve under its message hash. *)
Definition concerns (symbol : string) (ev : Event) : bool :=
  match ev with
  | Spawn_loadOrderBook _ s => String.eqb s symbol
  | Resolve _ h => String.eqb h (messageHashOf symbol)
  end.

(** Both sides of a book are in the canonical order of their kind. *)
Definition well_ordered (book : OrderBook) : Prop :=
  kind (bids book) = Bids ∧ kind (asks book) = Asks
  ∧ StronglySorted (before Bids) (levels (bids book))
  ∧ StronglySorted (before Asks) (levels (asks book)).

(** An exchange with a live btcusd book and a new ethusd book. *)
Definition two_markets : Exchange :=
  Scenario.exchange
    (<["ethusd"%string := orderBook]> {[ "btcusd"%string := Scenario.book10 ]}).

(** A delta on the channel of ethusd. *)
Definition diff_ethusd (nonce : Z) : Message :=
  mkMessage (Some "data"%string) (Some "diff_order_book_ethusd"%string)
            (Scenario.delta nonce [] []).

(** ** The subscriptions that the watch methods open *)

(** What this.market (symbol) gives: the exchange id and the unified symbol
    of a market. *)
Record Market := mkMarket {
  market_id : string;
  market_symbol : string
}.

(** A call of this.watch: the message hash under which the caller waits for
    client.resolve, and the channel of the 'bts:subscribe' request. *)
Record Subscription := mkSubscription {
  sub_messageHash : string;
  sub_channel : string
}.

(** watchOrderBook, up to its call of this.watch. *)
Definition watchOrderBook (market : Market) : Subscription :=
  let symbol := market_symbol market in
  let messageHash := "orderbook:" +:+ symbol in
  let channel := "diff_order_book_" +:+ market_id market in
  mkSubscription messageHash channel.

(** watchTrades, up to its call of this.watch. *)
Definition watchTrades (market : Market) : Subscription :=
  let symbol := market_symbol market in
  let messageHash := "trades:" +:+ symbol in
  let channel := "live_trades_" +:+ market_id market in
  mkSubscription messageHash channel.

(** subscribePrivate, up to its call of this.watch: the user id is appended
    to the message hash, which is also the channel of the request. *)
Definition subscribePrivate (messageHash userId : string) : Subscription :=
  let messageHash := messageHash +:+ "-" +:+ userId in
  mkSubscription messageHash messageHash.

(** watchOrders for a given symbol, up to the call of this.watch made by
    subscribePrivate; [userId] is this.options ['userId']. *)
Definition watchOrders (market : Market) (userId : string) : Subscription :=
  let channel := "private-my_orders"%string in
  let messageHash := channel +:+ "_" +:+ market_id market in
  subscribePrivate messageHash userId.

(** The characters of a string. *)
Fixpoint chars (s : string) : list ascii :=
  match s with
  | EmptyString => []
  | String c rest => c :: chars rest
  end.

(** ** authenticate: the session token of the private channels *)

(** The entries of this.options that authenticate reads and writes;
    [expiresIn] is what safeInteger reads (undefined for the initial ''). *)
Record Session := mkSession {
  expiresIn : option Z;
  userId : option string;
  wsSessionToken : option string
}.

(** The response of the token endpoint, as the safe accessors read it. *)
Record TokenResponse := mkTokenResponse {
  token : option string;
  user_id : option string;
  valid_sec : option Z
}.

(** authenticate after checkRequiredCredentials has passed, at the time
    [time] that this.milliseconds () returns. [response] is what the token
    endpoint answers if it is asked; the result says whether it was asked.
    [sum] is this.sum of the base class, which is not among the sources. *)
Definition authenticate (sum : Z → option Z → option Z) (time : Z)
    (response : TokenResponse) (options : Session) : Session * bool :=
  let expiresIn := expiresIn options in
  if bool_decide (expiresIn = None) || Js.lt expiresIn (Some time) then
    let sessionToken := token response in
    match sessionToken with
    | Some _ =>
        let userId := user_id response in
        let validity := (λ v, v * 1000) <$> valid_sec response in
        ({| expiresIn := sum time validity;
            userId := userId;
            wsSessionToken := sessionToken |}, true)
    | None => (options, true)
    end
  else (options, false).

(** The session of a new exchange object: describe () installs ''. *)
Definition no_session : Session := mkSession None None None.

(** this.sum on two numbers. *)
Definition sum_numbers (a : Z) (b : option Z) : option Z :=
  Some (a + default 0 b).
(** * Properties *)

(** ** The string helpers on the channels of the feed *)

Example split_diff_channel :
  Js.split "_"%char "diff_order_book_btcusd"
  = ["diff"; "order"; "book"; "btcusd"]%string.
Proof. reflexivity. Qed.

Example split_keeps_empty_parts :
  Js.split "_"%char "a__b_" = ["a"; ""; "b"; ""]%string.
Proof. reflexivity. Qed.

Example contains_order_book :
  Js.contains "order_book" "detail_order_book_btcusd" = true
  ∧ Js.contains "order_book" "private-my_orders_ltcusd-4848701" = false
  ∧ Js.contains "diff_order_book" "diff_order_book_btcusd" = true
  ∧ Js.contains "live_trades" "diff_order_book_btcusd" = false.
Proof. repeat split. Qed.

(** ** PriceLevelSide: the sorted invariant *)

Section SortedSide.

Variable k : SideKind.

Lemma precedes_trans p q r :
  precedes k p q = true → precedes k q r = true → precedes k p r = true.
Proof. destruct k; simpl; lia. Qed.

Lemma precedes_total p q :
  (p =? q) = false → precedes k p q = false → precedes k q p = true.
Proof. destruct k; simpl; lia. Qed.

Lemma upsertLevels_bound q p s c ls :
  precedes k q p = true →
  Forall (λ l, precedes k q (price l) = true) ls →
  Forall (λ l, precedes k q (price l) = true) (upsertLevels k p s c ls).
Proof.
  intros Hqp Hall. induction Hall as [|l rest Hl Hrest IH]; simpl.
  - destruct (s =? 0); constructor; simpl; auto.
  - destruct (p =? price l).
    + destruct (s =? 0); [assumption|]. constructor; simpl; auto.
    + destruct (precedes k p (price l)).
      * destruct (s =? 0); repeat constructor; simpl; auto.
      * constructor; auto.
Qed.

Lemma upsertLevels_sorted p s c ls :
  StronglySorted (before k) ls →
  StronglySorted (before k) (upsertLevels k p s c ls).
Proof.
  induction 1 as [|l rest Hrest IH Hl]; simpl.
  - destruct (s =? 0); repeat constructor.
  - destruct (p =? price l) eqn:Hp.
    + apply Z.eqb_eq in Hp. destruct (s =? 0); [assumption|].
      constructor; [assumption|].
      unfold before in *; simpl. rewrite Hp. exact Hl.
    + destruct (precedes k p (price l)) eqn:Hlt.
      * destruct (s =? 0); [by constructor|].
        constructor; [by constructor|].
        constructor; [exact Hlt|].
        eapply Forall_impl; [exact Hl|].
        unfold before; simpl. intros x Hx. eapply precedes_trans; eauto.
      * constructor; [exact IH|].
        apply upsertLevels_bound; [|exact Hl].
        apply precedes_total; [exact Hp|exact Hlt].
Qed.

End SortedSide.


Lemma upserts_kind ups side : kind (upserts ups side) = kind side.
Proof.
  revert side. induction ups as [|u ups IH]; intros; [done|].
  simpl. by rewrite IH.
Qed.

Lemma upserts_sorted ups side :
  StronglySorted (before (kind side)) (levels side) →
  StronglySorted (before (kind side)) (levels (upserts ups side)).
Proof.
  revert side. induction ups as [|u ups IH]; intros side Hs; [done|].
  simpl. apply (IH (upsert _ _ _ side)). simpl. by apply upsertLevels_sorted.
Qed.

Lemma StronglySorted_weaken {A} (R S : A → A → Prop) l :
  (∀ a b, R a b → S a b) → StronglySorted R l → StronglySorted S l.
Proof.
  intros HRS. induction 1 as [|x l Hl IH Hx]; constructor; [exact IH|].
  eapply Forall_impl; [exact Hx|]. intros y. apply HRS.
Qed.

Lemma firstn_sorted {A} (R : A → A → Prop) n l :
  StronglySorted R l → StronglySorted R (firstn n l).
Proof.
  intros Hs. rewrite <- (firstn_skipn n l) in Hs.
  by apply StronglySorted_app_1_l in Hs.
Qed.

Lemma toSortedArray_sorted limit side :
  StronglySorted (before (kind side)) (levels side) →
  StronglySorted (before (kind side)) (toSortedArray limit side).
Proof. destruct limit; simpl; [apply firstn_sorted|done]. Qed.

Lemma sorted_NoDup_prices k ls :
  StronglySorted (before k) ls → NoDup (map price ls).
Proof.
  induction 1 as [|l rest Hrest IH Hl]; simpl; constructor; [|assumption].
  intros Hin. apply list_elem_of_fmap in Hin as [x [Hx Hin]].
  rewrite Forall_forall in Hl. specialize (Hl x Hin).
  unfold before in Hl. rewrite Hx in Hl. destruct k; simpl in Hl; lia.
Qed.

Lemma bids_compareToNextItem_sorted ls :
  StronglySorted (before Bids) ls →
  TestOrderBook.bids_compareToNextItem ls = true.
Proof.
  induction 1 as [|l rest Hrest IH Hl]; simpl; [done|].
  rewrite IH, andb_true_r. destruct rest as [|x rest']; [done|].
  by inversion Hl.
Qed.

Lemma asks_compareToNextItem_sorted ls :
  StronglySorted (before Asks) ls →
  TestOrderBook.asks_compareToNextItem ls = true.
Proof.
  induction 1 as [|l rest Hrest IH Hl]; simpl; [done|].
  rewrite IH, andb_true_r. destruct rest as [|x rest']; [done|].
  by inversion Hl.
Qed.

Lemma upserts_view_sorted k ups limit :
  StronglySorted (before k) (toSortedArray limit (upserts ups (emptySide k))).
Proof.
  pose proof (upserts_sorted ups (emptySide k)) as Hs. simpl in Hs.
  specialize (Hs (SSorted_nil _)).
  pose proof (toSortedArray_sorted limit (upserts ups (emptySide k))) as Hv.
  rewrite upserts_kind in Hv. simpl in Hv. auto.
Qed.

(** C5. Whatever sequence of upserts a side has received since it was
    created empty, its sorted view (with or without a limit) is strictly
    descending by price on the bid side and strictly ascending on the ask
    side, no price occurs twice, and the compare-to-next-item assertions of
    test_order_book pass on it. *)
Theorem sorted_view_invariant (ups : list (Z * Z * option Z))
    (limit : option nat) :
  let bidView := toSortedArray limit (upserts ups (emptySide Bids)) in
  let askView := toSortedArray limit (upserts ups (emptySide Asks)) in
  StronglySorted (λ a b, price b < price a) bidView
  ∧ StronglySorted (λ a b, price a < price b) askView
  ∧ NoDup (map price bidView) ∧ NoDup (map price askView)
  ∧ TestOrderBook.bids_compareToNextItem bidView = true
  ∧ TestOrderBook.asks_compareToNextItem askView = true.
Proof.
  intros bidView askView.
  pose proof (upserts_view_sorted Bids ups limit) as Hb.
  pose proof (upserts_view_sorted Asks ups limit) as Ha.
  fold bidView in Hb. fold askView in Ha.
  repeat split.
  - eapply StronglySorted_weaken; [|exact Hb].
    unfold before; simpl; intros; lia.
  - eapply StronglySorted_weaken; [|exact Ha].
    unfold before; simpl; intros; lia.
  - by eapply sorted_NoDup_prices.
  - by eapply sorted_NoDup_prices.
  - by apply bids_compareToNextItem_sorted.
  - by apply asks_compareToNextItem_sorted.
Qed.

(** ** GapBuffer: which buffered deltas getCacheIndex selects *)


Lemma getCacheIndex_loop_range nonce rest i :
  i ≤ getCacheIndex_loop nonce rest i ≤ i + Z.of_nat (length rest).
Proof.
  revert i. induction rest as [|d rest IH]; intros i; simpl; [lia|].
  destruct (Js.strict_eq _ _); [lia|]. specialize (IH (i + 1)). lia.
Qed.

Lemma filter_newer_all n deltas :
  Forall (λ x, Js.lt (Some n) x = true) (nonces deltas) →
  List.filter (newer n) deltas = deltas.
Proof.
  induction deltas as [|d rest IH]; simpl; [done|].
  intros Hall. apply Forall_cons in Hall as [Hd Hrest].
  replace (newer n d) with true by (symmetry; exact Hd).
  f_equal. by apply IH.
Qed.

Lemma getCacheIndex_loop_match n deltas i :
  increasing deltas → In (Some n) (nonces deltas) →
  ∃ k : nat, getCacheIndex_loop (Some n) deltas i = i + Z.of_nat k
             ∧ skipn k deltas = List.filter (newer n) deltas.
Proof.
  revert i.
  induction deltas as [|d rest IH]; intros i Hinc Hin; [destruct Hin|].
  unfold increasing in Hinc. simpl in Hinc.
  apply StronglySorted_cons in Hinc as [Hd Hrest].
  simpl. destruct (Js.strict_eq (d_microtimestamp d) (Some n)) eqn:Heq.
  - exists 1%nat. split; [lia|]. simpl.
    destruct (d_microtimestamp d) as [a|] eqn:Ha; [|discriminate].
    simpl in Heq. apply Z.eqb_eq in Heq. subst a.
    unfold newer at 1. rewrite Ha. simpl. rewrite Z.ltb_irrefl.
    symmetry. apply filter_newer_all. exact Hd.
  - destruct Hin as [Hin|Hin].
    { rewrite Hin in Heq. simpl in Heq. rewrite Z.eqb_refl in Heq.
      discriminate. }
    destruct (IH (i + 1) Hrest Hin) as [k [Hk Hskip]].
    exists (S k). split; [lia|]. simpl.
    rewrite Forall_forall in Hd. specialize (Hd (Some n)).
    assert (Hlt : Js.lt (d_microtimestamp d) (Some n) = true).
    { apply Hd. by apply list_elem_of_In. }
    unfold newer at 1. destruct (d_microtimestamp d) as [a|]; [|discriminate].
    simpl in Hlt |- *. apply Z.ltb_lt in Hlt.
    destruct (n <? a) eqn:Hna; [lia|]. exact Hskip.
Qed.

(** C1 (amended). When the buffered nonces are strictly increasing and the
    snapshot nonce is the nonce of one of the buffered deltas, getCacheIndex
    returns a cache index from which on the buffer holds exactly the
    buffered deltas whose nonce is strictly greater than the snapshot nonce:
    these, and only these, are selected for replay. *)
Theorem reconcile_replays_newer (orderbook : Snapshot) (deltas : list Delta)
    (n : Z) :
  s_nonce orderbook = Some n →
  increasing deltas →
  In (Some n) (nonces deltas) →
  0 ≤ getCacheIndex orderbook deltas
  ∧ skipn (Z.to_nat (getCacheIndex orderbook deltas)) deltas
    = List.filter (newer n) deltas
  ∧ reconcile orderbook deltas = Some (List.filter (newer n) deltas).
Proof.
  intros Hn Hinc Hin. unfold reconcile, getCacheIndex. rewrite Hn.
  assert (Hfirst :
    Js.lt (Some n) (deltas !! 0%nat ≫= d_microtimestamp) = false).
  { destruct deltas as [|d rest]; [done|]. simpl.
    destruct Hin as [Hin|Hin].
    - rewrite Hin. simpl. apply Z.ltb_irrefl.
    - unfold increasing in Hinc. simpl in Hinc.
      apply StronglySorted_cons in Hinc as [Hd _].
      rewrite Forall_forall in Hd. specialize (Hd (Some n)).
      assert (Hlt : Js.lt (d_microtimestamp d) (Some n) = true).
      { apply Hd. by apply list_elem_of_In. }
      destruct (d_microtimestamp d) as [a|]; [|discriminate].
      simpl in Hlt |- *. lia. }
  rewrite Hfirst.
  destruct (getCacheIndex_loop_match n deltas 0 Hinc Hin) as [k [Hk Hskip]].
  rewrite Hk, Z.add_0_l.
  destruct (Z.of_nat k <? 0) eqn:Hneg; [lia|].
  rewrite Nat2Z.id, Hskip. repeat split. lia.
Qed.

(** Scenario 2: buffered nonces 5, 6, 7 and snapshot nonce 6. *)
Lemma reconcile_replays_newer_witness :
  let deltas := map Scenario.nonce_only [5; 6; 7] in
  reconcile (mkSnapshot [] [] None (Some 6)) deltas
  = Some [Scenario.nonce_only 7].
Proof.
  intros deltas.
  refine (eq_trans (proj2 (proj2 (reconcile_replays_newer
            (mkSnapshot [] [] None (Some 6)) deltas 6 _ _ _))) _).
  - reflexivity.
  - unfold increasing; simpl. repeat constructor.
  - simpl. right. left. reflexivity.
  - reflexivity.
Defined.

(** C1, as stated, fails: with buffered nonces 5, 7, 8 and snapshot nonce 6
    (not below the first buffered nonce) nothing is replayed, although the
    deltas 7 and 8 are newer than the snapshot. *)
Lemma reconcile_without_match_replays_nothing :
  let deltas := map Scenario.nonce_only [5; 7; 8] in
  let orderbook := mkSnapshot [] [] None (Some 6) in
  Js.ge (s_nonce orderbook) (deltas !! 0%nat ≫= d_microtimestamp) = true
  ∧ increasing deltas
  ∧ getCacheIndex orderbook deltas = 3
  ∧ reconcile orderbook deltas = Some []
  ∧ List.filter (newer 6) deltas = map Scenario.nonce_only [7; 8]
  ∧ reconcile orderbook deltas ≠ Some (List.filter (newer 6) deltas).
Proof.
  repeat split; try reflexivity.
  - unfold increasing; simpl. repeat constructor.
  - discriminate.
Qed.

(** C2 (amended). getCacheIndex gives the failure result [-1] exactly when
    the snapshot nonce is strictly smaller than the nonce of the first
    buffered delta; in every other case it gives a cache index between [0]
    and the length of the buffer, hence a replay list. *)
Theorem getCacheIndex_fails_iff_first_ahead (orderbook : Snapshot)
    (deltas : list Delta) :
  (getCacheIndex orderbook deltas = -1 ↔ first_ahead orderbook deltas)
  ∧ (getCacheIndex orderbook deltas ≠ -1 →
     0 ≤ getCacheIndex orderbook deltas ≤ Z.of_nat (length deltas)
     ∧ reconcile orderbook deltas
       = Some (skipn (Z.to_nat (getCacheIndex orderbook deltas)) deltas)).
Proof.
  assert (Hrange := getCacheIndex_loop_range (s_nonce orderbook) deltas 0).
  assert (Hcases :
    Js.lt (s_nonce orderbook) (deltas !! 0%nat ≫= d_microtimestamp) = true
    ↔ first_ahead orderbook deltas).
  { unfold first_ahead. split.
    - destruct (s_nonce orderbook) as [n|]; [|discriminate].
      destruct (deltas !! 0%nat) as [first|]; [|discriminate]. simpl.
      destruct (d_microtimestamp first) as [f|] eqn:Hf; [|discriminate].
      intros Hlt. exists n, first, f. repeat split; [exact Hf|lia].
    - intros (n & first & f & -> & -> & Hf & Hlt). simpl. rewrite Hf.
      simpl. lia. }
  unfold reconcile, getCacheIndex in *.
  destruct (Js.lt (s_nonce orderbook) (deltas !! 0%nat ≫= d_microtimestamp)).
  - split; [|congruence]. split; [intros _; by apply Hcases|done].
  - split.
    + split; [lia|]. intros H. apply Hcases in H. discriminate.
    + intros _. split; [lia|].
      destruct (_ <? 0) eqn:Hneg; [lia|done].
Qed.

(** C2, as stated, fails: the first buffered nonce 7 is the snapshot nonce 6
    plus 1, not more, and getCacheIndex still gives the failure result. *)
Lemma getCacheIndex_fails_on_next_nonce :
  let deltas := [Scenario.nonce_only 7] in
  let orderbook := mkSnapshot [] [] None (Some 6) in
  (deltas !! 0%nat ≫= d_microtimestamp) = (λ n, n + 1) <$> s_nonce orderbook
  ∧ getCacheIndex orderbook deltas = -1
  ∧ reconcile orderbook deltas = None.
Proof. repeat split. Qed.

(** ** handleOrderBook, one message *)

Section HandleOrderBook.

Variable safeSymbol : option string → string.
Variable iso8601 : option Z → option string.


Lemma symbolOf_channel message symbol :
  symbolOf safeSymbol message = Some symbol →
  ∃ channel, m_channel message = Some channel
             ∧ symbolOfChannel safeSymbol channel = symbol.
Proof.
  unfold symbolOf. destruct (m_channel message) as [c|]; [|done].
  simpl. intros [= <-]. by exists c.
Qed.

(** Without a channel, channel.split throws. *)
Lemma handleOrderBook_no_channel this message :
  m_channel message = None →
  handleOrderBook safeSymbol iso8601 message this = Thrown TypeError this [].
Proof. intros Hc. unfold handleOrderBook. by rewrite Hc. Qed.

(** Without a stored book for the market, storedOrderBook.cache throws. *)
Lemma handleOrderBook_no_book this message symbol :
  symbolOf safeSymbol message = Some symbol →
  orderbooks this !! symbol = None →
  handleOrderBook safeSymbol iso8601 message this = Thrown TypeError this [].
Proof.
  intros Hsym Hbook.
  apply symbolOf_channel in Hsym as (channel & Hc & <-).
  unfold handleOrderBook. by rewrite Hc, Hbook.
Qed.

(** While the book has no nonce the delta is buffered, and loadOrderBook
    is spawned when the buffer already holds snapshotDelay deltas. *)
Lemma handleOrderBook_buffering this message symbol book :
  symbolOf safeSymbol message = Some symbol →
  orderbooks this !! symbol = Some book →
  nonce book = None →
  handleOrderBook safeSymbol iso8601 message this
  = Returned tt
      (set_orderbooks (insert symbol (cache_push book (m_data message))) this)
      (if Z.of_nat (length (cache book)) =? handleOption this 6
       then [Spawn_loadOrderBook (messageHashOf symbol) symbol] else []).
Proof.
  intros Hsym Hbook Hnonce.
  apply symbolOf_channel in Hsym as (channel & Hc & <-).
  unfold handleOrderBook. rewrite Hc, Hbook. simpl.
  by rewrite Hnonce.
Qed.

(** A live book drops a delta whose nonce is not above its own. *)
Lemma handleOrderBook_stale this message symbol book :
  symbolOf safeSymbol message = Some symbol →
  orderbooks this !! symbol = Some book →
  Js.ge (nonce book) (d_microtimestamp (m_data message)) = true →
  handleOrderBook safeSymbol iso8601 message this = Returned tt this [].
Proof.
  intros Hsym Hbook Hge.
  apply symbolOf_channel in Hsym as (channel & Hc & <-).
  unfold handleOrderBook. rewrite Hc, Hbook. simpl.
  destruct (nonce book) as [n|]; [|done]. by rewrite Hge.
Qed.

(** A live book applies every other delta and resolves the book. *)
Lemma handleOrderBook_live this message symbol book n :
  symbolOf safeSymbol message = Some symbol →
  orderbooks this !! symbol = Some book →
  nonce book = Some n →
  Js.ge (Some n) (d_microtimestamp (m_data message)) = false →
  handleOrderBook safeSymbol iso8601 message this
  = Returned tt
      (set_orderbooks
         (insert symbol (handleDelta iso8601 book (m_data message))) this)
      [Resolve (handleDelta iso8601 book (m_data message))
               (messageHashOf symbol)].
Proof.
  intros Hsym Hbook Hnonce Hge.
  apply symbolOf_channel in Hsym as (channel & Hc & <-).
  unfold handleOrderBook. rewrite Hc, Hbook. simpl.
  by rewrite Hnonce, Hge.
Qed.

(** C4. A delta whose nonce is less than or equal to the nonce of the live
    book is dropped: handleOrderBook returns normally, [this] (hence the
    bids, asks, nonce, timestamp and datetime of the book) is unchanged,
    and nothing is resolved or spawned. *)
Theorem stale_delta_is_dropped (this : Exchange) (message : Message)
    (symbol : string) (book : OrderBook) (n d : Z) :
  symbolOf safeSymbol message = Some symbol →
  orderbooks this !! symbol = Some book →
  nonce book = Some n →
  d_microtimestamp (m_data message) = Some d →
  d ≤ n →
  let outcome := handleOrderBook safeSymbol iso8601 message this in
  outcome = Returned tt this []
  ∧ orderbooks (state_of outcome) !! symbol = Some book.
Proof.
  intros Hsym Hbook Hnonce Hd Hle outcome.
  assert (Hstale : outcome = Returned tt this []).
  { eapply handleOrderBook_stale; eauto. rewrite Hnonce, Hd. simpl. lia. }
  rewrite Hstale. by split.
Qed.

(** C6 (amended). handleDelta has no check of best bid against best ask
    and raises nothing: on a live book every delta with a greater nonce is
    applied as it is and the book resolved, and the sides of the resolved
    book are exactly the stored sides with the entries of the delta stored
    into them, crossed or not. The comparison of best bid and best ask is
    the spread assertion of test_order_book, which fails exactly when both
    sides have an entry and the first bid is not below the first ask. *)
Theorem delta_applied_without_spread_check (this : Exchange) (message : Message)
    (symbol : string) (book : OrderBook) (n d : Z) :
  symbolOf safeSymbol message = Some symbol →
  orderbooks this !! symbol = Some book →
  nonce book = Some n →
  d_microtimestamp (m_data message) = Some d →
  n < d →
  let book' := handleDelta iso8601 book (m_data message) in
  handleOrderBook safeSymbol iso8601 message this
  = Returned tt (set_orderbooks (insert symbol book') this)
             [Resolve book' (messageHashOf symbol)]
  ∧ bids book'
    = handleBidAsks (bids book) (default [] (d_bids (m_data message)))
  ∧ asks book'
    = handleBidAsks (asks book) (default [] (d_asks (m_data message)))
  ∧ (TestOrderBook.spread (toSortedArray None (bids book'))
                          (toSortedArray None (asks book')) = false
     ↔ ∃ bestBid bestAsk,
         head (toSortedArray None (bids book')) = Some bestBid
         ∧ head (toSortedArray None (asks book')) = Some bestAsk
         ∧ price bestAsk ≤ price bestBid).
Proof.
  intros Hsym Hbook Hnonce Hd Hlt book'. split; [|split; [done|split; [done|]]].
  - eapply handleOrderBook_live; eauto. rewrite Hd. simpl. lia.
  - unfold TestOrderBook.spread.
    destruct (toSortedArray None (bids book')) as [|b bs];
      destruct (toSortedArray None (asks book')) as [|a as_]; simpl.
    + split; [done|]. by intros (? & ? & ? & _).
    + split; [done|]. by intros (? & ? & ? & _).
    + split; [done|]. by intros (? & ? & _ & ? & _).
    + split.
      * intros Hf. exists b, a. repeat split. lia.
      * intros (b' & a' & [= <-] & [= <-] & Hle). lia.
Qed.

End HandleOrderBook.

(** C8. Scenario 1: on the book with bids [[100,2]], asks [[101,3]] and nonce
    10, the delta with nonce 11 and the single bid entry [[100,0]] leaves no
    bid, leaves the asks as they were, and sets the nonce to 11. *)
Theorem scenario1_zero_size_deletes_level
    (iso8601 : option Z → option string) :
  let delta := mkDelta None (Some 11) (Some [[100; 0]]) None None in
  let book := handleDelta iso8601 Scenario.book10 delta in
  toSortedArray None (bids book) = []
  ∧ asks book = asks Scenario.book10
  ∧ toSortedArray None (asks book) = [mkLevel 101 3 None]
  ∧ nonce book = Some 11.
Proof. repeat split. Qed.

(** A stale delta (nonce 10 on the book at nonce 10) on the live exchange. *)
Lemma stale_delta_is_dropped_witness :
  let message := Scenario.diff 10 [[100; 0]] [] in
  let outcome :=
    handleOrderBook Scenario.safeSymbol Scenario.iso8601 message
      Scenario.live in
  outcome = Returned tt Scenario.live []
  ∧ orderbooks (state_of outcome) !! "btcusd"%string = Some Scenario.book10.
Proof.
  intros message.
  apply (stale_delta_is_dropped Scenario.safeSymbol Scenario.iso8601
           Scenario.live message "btcusd"%string Scenario.book10 10 10).
  - reflexivity.
  - reflexivity.
  - reflexivity.
  - reflexivity.
  - lia.
Defined.

(** A crossing bid (102 against the best ask 101) on the live exchange. *)
Lemma delta_applied_without_spread_check_witness :
  let message := Scenario.diff 11 [[102; 1]] [] in
  let book' := handleDelta Scenario.iso8601 Scenario.book10 (m_data message) in
  handleOrderBook Scenario.safeSymbol Scenario.iso8601 message Scenario.live
  = Returned tt (set_orderbooks (insert "btcusd"%string book') Scenario.live)
             [Resolve book' (messageHashOf "btcusd"%string)].
Proof.
  intros message book'.
  apply (delta_applied_without_spread_check Scenario.safeSymbol Scenario.iso8601
           Scenario.live message "btcusd"%string Scenario.book10 10 11).
  - reflexivity.
  - reflexivity.
  - reflexivity.
  - reflexivity.
  - lia.
Defined.

(** C6, as stated, fails: a bid at 102 against the best ask 101 is applied
    without any error, the crossed book is stored and resolved to the
    consumers as it is, and only the spread assertion of the test rejects
    it. *)
Lemma crossing_delta_raises_nothing :
  let message := Scenario.diff 11 [[102; 1]] [] in
  let outcome :=
    handleOrderBook Scenario.safeSymbol Scenario.iso8601 message
      Scenario.live in
  ∃ book,
    returns outcome = true
    ∧ orderbooks (state_of outcome) !! "btcusd"%string = Some book
    ∧ log_of outcome = [Resolve book "orderbook:btcusd"%string]
    ∧ toSortedArray None (bids book)
      = [mkLevel 102 1 None; mkLevel 100 2 None]
    ∧ toSortedArray None (asks book) = [mkLevel 101 3 None]
    ∧ TestOrderBook.spread (toSortedArray None (bids book))
                           (toSortedArray None (asks book)) = false
    ∧ TestOrderBook.test_order_book TestOrderBook.nothing_skipped
        (toSortedArray None (bids book)) (toSortedArray None (asks book))
      = false.
Proof.
  eexists. split; [reflexivity|]. split; [reflexivity|]. repeat split.
Qed.

(** ** handleOrderBook, a sequence of messages *)

Lemma forEach_cons handler message rest this :
  forEach handler (message :: rest) this
  = match handler message this with
    | Returned _ this1 log1 =>
        match forEach handler rest this1 with
        | Returned b this2 log2 => Returned b this2 (log1 ++ log2)
        | Thrown e this2 log2 => Thrown e this2 (log1 ++ log2)
        end
    | Thrown e this1 log1 => Thrown e this1 log1
    end.
Proof. reflexivity. Qed.

Lemma resolved_nonces_app h log1 log2 :
  resolved_nonces h (log1 ++ log2)
  = resolved_nonces h log1 ++ resolved_nonces h log2.
Proof. apply flat_map_app. Qed.

Lemma messageHashOf_inj s1 s2 : messageHashOf s1 = messageHashOf s2 → s1 = s2.
Proof. unfold messageHashOf. intros H. by simplify_eq/=. Qed.

Lemma resolved_nonces_resolve symbol s book :
  resolved_nonces (messageHashOf symbol) [Resolve book (messageHashOf s)]
  = if decide (s = symbol) then [nonce book] else [].
Proof.
  unfold resolved_nonces, flat_map. rewrite app_nil_r.
  destruct (decide (s = symbol)) as [->|Hne].
  - by rewrite String.eqb_refl.
  - assert (Hhash :
      String.eqb (messageHashOf s) (messageHashOf symbol) = false).
    { apply String.eqb_neq. intros H. by apply messageHashOf_inj in H. }
    by rewrite Hhash.
Qed.

Lemma advances_trans a b c : advances a b → advances b c → advances a c.
Proof. destruct a, b, c; simpl; try done. lia. Qed.

Lemma advances_no_regression a b : advances a b → no_regression a b.
Proof. unfold no_regression. destruct a, b; simpl; try done. lia. Qed.

Lemma advancing_defined nonces :
  StronglySorted advances nonces → StronglySorted Z.lt (defined nonces).
Proof.
  induction 1 as [|x rest Hrest IH Hx]; [constructor|].
  unfold defined. simpl. destruct x as [a|]; simpl; [|exact IH].
  constructor; [exact IH|].
  clear IH Hrest. induction Hx as [|y rest Hy Hrest IH]; [constructor|].
  simpl. destruct y as [b|]; simpl; [|exact IH]. by constructor.
Qed.

(** The request spawned at buffer length [held], followed by the one
    spawned while the buffer grows from [held + 1] by [n] more deltas. *)
Lemma spawn_once {A} (x : A) (held delay n : Z) :
  0 ≤ n →
  (if held =? delay then [x] else [])
  ++ (if (held + 1 <=? delay) && (delay <? held + 1 + n) then [x] else [])
  = if (held <=? delay) && (delay <? held + Z.succ n) then [x] else [].
Proof.
  intros Hn.
  destruct (Z.eqb_spec held delay), (Z.leb_spec0 (held + 1) delay),
    (Z.ltb_spec0 delay (held + 1 + n)), (Z.leb_spec0 held delay),
    (Z.ltb_spec0 delay (held + Z.succ n)); simpl; try reflexivity; lia.
Qed.

Section Feed.

Variable safeSymbol : option string → string.
Variable iso8601 : option Z → option string.


(** The nonce of the stored book of a market. *)
Local Abbreviation nonce_at this symbol :=
  (orderbooks this !! symbol ≫= nonce).

(** One message either resolves nothing for the market and leaves the nonce
    of its book alone, or resolves one view, which carries the new nonce
    of the book, and the nonce has advanced. *)
Lemma handleOrderBook_step this message symbol :
  let outcome := handleOrderBook safeSymbol iso8601 message this in
  let resolved := resolved_nonces (messageHashOf symbol) (log_of outcome) in
  (resolved = [] ∧ nonce_at (state_of outcome) symbol = nonce_at this symbol)
  ∨ (resolved = [nonce_at (state_of outcome) symbol]
     ∧ advances (nonce_at this symbol) (nonce_at (state_of outcome) symbol)).
Proof.
  intros outcome resolved. subst resolved outcome.
  destruct (m_channel message) as [channel|] eqn:Hchannel;
    [|left; by rewrite handleOrderBook_no_channel].
  set (s := symbolOfChannel safeSymbol channel).
  assert (Hsym : symbolOf safeSymbol message = Some s).
  { unfold symbolOf. by rewrite Hchannel. }
  destruct (orderbooks this !! s) as [book|] eqn:Hbook;
    [|left; by rewrite (handleOrderBook_no_book _ _ _ _ _ Hsym Hbook)].
  destruct (nonce book) as [n|] eqn:Hn.
  - destruct (Js.ge (Some n) (d_microtimestamp (m_data message))) eqn:Hge.
    + left. rewrite (handleOrderBook_stale _ _ this message s book Hsym Hbook);
        [done|by rewrite Hn].
    + rewrite (handleOrderBook_live _ _ this message s book n
                 Hsym Hbook Hn Hge).
      cbn [log_of state_of set_orderbooks orderbooks].
      rewrite resolved_nonces_resolve.
      destruct (decide (s = symbol)) as [<-|Hne].
      * right. rewrite lookup_insert_eq, Hbook. cbn. rewrite Hn.
        split; [done|].
        destruct (d_microtimestamp (m_data message)); simpl in *; [lia|done].
      * left. by rewrite lookup_insert_ne.
  - left.
    rewrite (handleOrderBook_buffering _ _ this message s book Hsym Hbook Hn).
    cbn [log_of state_of set_orderbooks orderbooks].
    split; [by destruct (_ =? _)|].
    destruct (decide (s = symbol)) as [<-|Hne].
    + rewrite lookup_insert_eq, Hbook. cbn. by rewrite Hn.
    + by rewrite lookup_insert_ne.
Qed.

(** Every view resolved for a market by a sequence of messages carries a
    nonce to which the nonce of the stored book has advanced; a book
    without nonce resolves nothing. *)
Lemma resolved_after this messages symbol :
  Forall (advances (nonce_at this symbol))
    (resolved_nonces (messageHashOf symbol)
       (log_of (forEach (handleOrderBook safeSymbol iso8601) messages this))).
Proof.
  revert this. induction messages as [|message rest IH]; intros this.
  { constructor. }
  rewrite forEach_cons.
  pose proof (handleOrderBook_step this message symbol) as Hstep.
  simpl in Hstep.
  destruct (handleOrderBook safeSymbol iso8601 message this)
    as [[] this1 log1|e this1 log1]; simpl in Hstep.
  - specialize (IH this1).
    assert (Hall : Forall (advances (nonce_at this symbol))
              (resolved_nonces (messageHashOf symbol) log1
               ++ resolved_nonces (messageHashOf symbol)
                    (log_of (forEach (handleOrderBook safeSymbol iso8601)
                               rest this1)))).
    { destruct Hstep as [[-> Hsame]|[-> Hadv]]; simpl.
      - by rewrite <- Hsame.
      - constructor; [done|].
        eapply Forall_impl; [exact IH|]. intros x. by apply advances_trans. }
    destruct (forEach (handleOrderBook safeSymbol iso8601) rest this1);
      simpl in *; by rewrite resolved_nonces_app.
  - simpl. destruct Hstep as [[-> _]|[-> Hadv]]; by repeat constructor.
Qed.

Lemma resolved_advancing this messages symbol :
  StronglySorted advances
    (resolved_nonces (messageHashOf symbol)
       (log_of (forEach (handleOrderBook safeSymbol iso8601) messages this))).
Proof.
  revert this. induction messages as [|message rest IH]; intros this.
  { constructor. }
  rewrite forEach_cons.
  pose proof (handleOrderBook_step this message symbol) as Hstep.
  simpl in Hstep.
  destruct (handleOrderBook safeSymbol iso8601 message this)
    as [[] this1 log1|e this1 log1]; simpl in Hstep.
  - assert (Hall : StronglySorted advances
              (resolved_nonces (messageHashOf symbol) log1
               ++ resolved_nonces (messageHashOf symbol)
                    (log_of (forEach (handleOrderBook safeSymbol iso8601)
                               rest this1)))).
    { destruct Hstep as [[-> Hsame]|[-> Hadv]]; simpl.
      - apply IH.
      - constructor; [apply IH|apply resolved_after]. }
    destruct (forEach (handleOrderBook safeSymbol iso8601) rest this1);
      simpl in *; by rewrite resolved_nonces_app.
  - simpl. destruct Hstep as [[-> _]|[-> Hadv]]; by repeat constructor.
Qed.

(** C3. For every sequence of messages handled by handleOrderBook, from
    any state (in particular from a live book), the nonces of the views
    resolved for one market, in the order of their resolution, never go
    down: a view resolved later never carries a smaller nonce than a view
    resolved before, and the nonces that are defined are in non-decreasing
    order. *)
Theorem resolved_nonces_never_regress (this : Exchange)
    (messages : list Message) (symbol : string) :
  let resolved :=
    resolved_nonces (messageHashOf symbol)
      (log_of (forEach (handleOrderBook safeSymbol iso8601) messages this)) in
  StronglySorted no_regression resolved
  ∧ StronglySorted Z.le (defined resolved).
Proof.
  intros resolved. split.
  - eapply StronglySorted_weaken; [|apply resolved_advancing].
    apply advances_no_regression.
  - eapply StronglySorted_weaken;
      [|apply advancing_defined, resolved_advancing].
    intros a b. apply Z.lt_le_incl.
Qed.

(** The buffering phase as a whole: every message for the market is
    appended to the buffer, the nonce stays undefined, and loadOrderBook
    is spawned once if the buffer length passes through snapshotDelay. *)
Lemma forEach_buffering messages : ∀ this symbol book,
  orderbooks this !! symbol = Some book →
  nonce book = None →
  Forall (λ message, symbolOf safeSymbol message = Some symbol) messages →
  let outcome := forEach (handleOrderBook safeSymbol iso8601) messages this in
  let held := Z.of_nat (length (cache book)) in
  let delay := handleOption this 6 in
  returns outcome = true
  ∧ snapshotDelay (state_of outcome) = snapshotDelay this
  ∧ (∃ book', orderbooks (state_of outcome) !! symbol = Some book'
             ∧ nonce book' = None
             ∧ cache book' = cache book ++ map m_data messages)
  ∧ log_of outcome
    = if (held <=? delay) && (delay <? held + Z.of_nat (length messages))
      then [Spawn_loadOrderBook (messageHashOf symbol) symbol] else [].
Proof.
  induction messages as [|message rest IH];
    intros this symbol book Hbook Hnonce Hall.
  { simpl. rewrite Z.add_0_r. repeat split.
    - exists book. by rewrite app_nil_r.
    - destruct (_ <=? _) eqn:H1, (_ <? _) eqn:H2; simpl; try done.
      exfalso; lia. }
  apply Forall_cons in Hall as [Hsym Hrest].
  cbv zeta. rewrite forEach_cons.
  change (length (message :: rest)) with (S (length rest)).
  rewrite Nat2Z.inj_succ.
  rewrite (handleOrderBook_buffering _ _ this message symbol book
             Hsym Hbook Hnonce).
  set (this1 := set_orderbooks _ this).
  specialize (IH this1 symbol (cache_push book (m_data message))).
  assert (Hopt : handleOption this1 6 = handleOption this 6) by done.
  cbv zeta in IH. rewrite Hopt in IH.
  destruct IH as (Hret & Hdelay & (book' & Hb' & Hn' & Hc') & Hlog).
  { unfold this1. simpl. apply lookup_insert_eq. }
  { done. }
  { done. }
  simpl in Hc', Hlog. rewrite length_app, Nat2Z.inj_add in Hlog.
  change (Z.of_nat (length [m_data message])) with 1 in Hlog.
  destruct (forEach (handleOrderBook safeSymbol iso8601) rest this1)
    as [[] this2 log2|e this2 log2]; [|discriminate].
  simpl in *. repeat split.
  - done.
  - exists book'. repeat split; [done|done|]. by rewrite Hc', <- app_assoc.
  - subst log2. apply spawn_once. lia.
Qed.

End Feed.

(** ** The buffering phase: snapshot request and buffer growth *)

Lemma diffs_target count :
  Forall (λ message,
            symbolOf Scenario.safeSymbol message = Some "btcusd"%string)
         (Scenario.diffs count).
Proof. unfold Scenario.diffs. apply Forall_map, Forall_forall. done. Qed.

(** C7 (amended). While the book has no nonce, handleOrderBook spawns the
    snapshot request when a delta arrives and the buffer already holds
    snapshotDelay deltas (6 unless configured otherwise), before that delta
    is buffered. From an empty buffer, the first [n] deltas of a market have
    spawned the request exactly when [n] is greater than snapshotDelay: it is
    delta number snapshotDelay + 1 that triggers it, and it is spawned at
    most once in the phase. *)
Theorem snapshot_requested_after_delay (safeSymbol : option string → string)
    (iso8601 : option Z → option string) (this : Exchange) (symbol : string)
    (book : OrderBook) (messages : list Message) :
  orderbooks this !! symbol = Some book →
  nonce book = None →
  cache book = [] →
  Forall (λ message, symbolOf safeSymbol message = Some symbol) messages →
  let delay := handleOption this 6 in
  (snapshotDelay this = None → delay = 6)
  ∧ ∀ n : nat,
      let outcome :=
        forEach (handleOrderBook safeSymbol iso8601) (firstn n messages) this in
      returns outcome = true
      ∧ log_of outcome
        = if (0 <=? delay) && (delay <? Z.of_nat (length (firstn n messages)))
          then [Spawn_loadOrderBook (messageHashOf symbol) symbol] else [].
Proof.
  intros Hbook Hnonce Hcache Hall delay. split.
  { unfold delay, handleOption. by intros ->. }
  intros n outcome.
  assert (Hprefix :
    Forall (λ message, symbolOf safeSymbol message = Some symbol)
           (firstn n messages)).
  { by apply Forall_take. }
  destruct (forEach_buffering safeSymbol iso8601 (firstn n messages)
              this symbol book Hbook Hnonce Hprefix) as (Hret & _ & _ & Hlog).
  rewrite Hcache in Hlog. simpl in Hlog. by split.
Qed.

(** Seven deltas on the fresh exchange, with the installed delay of 6. *)
Lemma snapshot_requested_after_delay_witness :
  log_of (forEach (handleOrderBook Scenario.safeSymbol Scenario.iso8601)
            (Scenario.diffs 7) Scenario.fresh)
  = [Spawn_loadOrderBook "orderbook:btcusd"%string "btcusd"%string].
Proof.
  assert (Hall : Forall (λ message, symbolOf Scenario.safeSymbol message
                                    = Some "btcusd"%string) (Scenario.diffs 7)).
  { repeat (constructor; [reflexivity|]). constructor. }
  exact (proj2 (proj2 (snapshot_requested_after_delay
           Scenario.safeSymbol Scenario.iso8601 Scenario.fresh "btcusd"%string
           orderBook (Scenario.diffs 7) eq_refl eq_refl eq_refl Hall) 7%nat)).
Defined.

(** C7, as stated, fails: with snapshotDelay 6, buffering the sixth delta
    brings the buffer to six deltas and requests nothing; the request is
    spawned by the seventh delta. *)
Lemma sixth_delta_requests_no_snapshot :
  let handler := handleOrderBook Scenario.safeSymbol Scenario.iso8601 in
  let after6 := forEach handler (Scenario.diffs 6) Scenario.fresh in
  handleOption Scenario.fresh 6 = 6
  ∧ returns after6 = true
  ∧ (cache <$> orderbooks (state_of after6) !! "btcusd"%string)
    = Some (map m_data (Scenario.diffs 6))
  ∧ log_of after6 = []
  ∧ log_of (handler (Scenario.diff 7 [] []) (state_of after6))
    = [Spawn_loadOrderBook "orderbook:btcusd"%string "btcusd"%string].
Proof. repeat split. Qed.

(** C9 (amended). handleOrderBook puts no cap on the buffer and has no
    overflow condition: while the book has no nonce, every delta for the
    market is appended and handleOrderBook returns normally, so that the
    buffer has grown by exactly the number of deltas received. *)
Theorem buffer_grows_with_every_delta (safeSymbol : option string → string)
    (iso8601 : option Z → option string) (this : Exchange) (symbol : string)
    (book : OrderBook) (messages : list Message) :
  orderbooks this !! symbol = Some book →
  nonce book = None →
  Forall (λ message, symbolOf safeSymbol message = Some symbol) messages →
  let outcome := forEach (handleOrderBook safeSymbol iso8601) messages this in
  returns outcome = true
  ∧ ∃ book', orderbooks (state_of outcome) !! symbol = Some book'
             ∧ nonce book' = None
             ∧ cache book' = cache book ++ map m_data messages
             ∧ length (cache book')
               = (length (cache book) + length messages)%nat.
Proof.
  intros Hbook Hnonce Hall outcome.
  destruct (forEach_buffering safeSymbol iso8601 messages this symbol book
              Hbook Hnonce Hall) as (Hret & _ & (book' & Hb' & Hn' & Hc') & _).
  split; [done|]. exists book'. repeat split; try done.
  by rewrite Hc', length_app, length_map.
Qed.

(** Three deltas on the fresh exchange. *)
Lemma buffer_grows_with_every_delta_witness :
  returns (forEach (handleOrderBook Scenario.safeSymbol Scenario.iso8601)
             (Scenario.diffs 3) Scenario.fresh) = true.
Proof.
  assert (Hall : Forall (λ message, symbolOf Scenario.safeSymbol message
                                    = Some "btcusd"%string) (Scenario.diffs 3)).
  { repeat (constructor; [reflexivity|]). constructor. }
  exact (proj1 (buffer_grows_with_every_delta
           Scenario.safeSymbol Scenario.iso8601 Scenario.fresh "btcusd"%string
           orderBook (Scenario.diffs 3) eq_refl eq_refl Hall)).
Defined.


(** C9, as stated, fails: no cap bounds the buffer. For every candidate cap,
    cap + 1 deltas arriving before the snapshot are all buffered, and
    handleOrderBook raises nothing. *)
Lemma buffer_has_no_cap : ¬ ∃ cap : nat, buffer_capped cap.
Proof.
  intros [cap Hcap]. specialize (Hcap (Scenario.diffs (S cap))).
  destruct (forEach_buffering Scenario.safeSymbol Scenario.iso8601
              (Scenario.diffs (S cap)) Scenario.fresh "btcusd"%string orderBook
              eq_refl eq_refl (diffs_target _))
    as (Hret & _ & (book' & Hb' & _ & Hc') & _).
  cbv zeta in Hcap. destruct Hcap as [Hthrown|Hle]; [congruence|].
  specialize (Hle book' Hb'). rewrite Hc' in Hle.
  unfold Scenario.diffs in Hle.
  rewrite length_app, !length_map, length_seq in Hle. simpl in Hle. lia.
Qed.

(** A live run: the deltas 11 and 12 are applied, the repeated 12 and the
    late 11 are dropped, 15 is applied; three views are resolved. *)
Example resolved_nonces_live_run :
  resolved_nonces "orderbook:btcusd"%string
    (log_of (forEach (handleOrderBook Scenario.safeSymbol Scenario.iso8601)
               [Scenario.diff 11 [[100; 0]] []; Scenario.diff 12 [] [[101; 1]];
                Scenario.diff 12 [] []; Scenario.diff 11 [[99; 1]] [];
                Scenario.diff 15 [[99; 2]] []]
               Scenario.live))
  = [Some 11; Some 12; Some 15].
Proof. reflexivity. Qed.

(** ** Subscription acknowledgment *)

Section Subscription.

Variable safeSymbol : option string → string.
Variable iso8601 : option Z → option string.
Variable handleTrade handleOrders : Message → M unit.

Lemma handleErrorMessage_other_event message event this :
  m_event message = Some event →
  event ≠ "bts:error"%string →
  handleErrorMessage message this = Returned message this [].
Proof.
  intros Hevent Hne. unfold handleErrorMessage, Js.str_eq. rewrite Hevent.
  rewrite bool_decide_eq_false_2; [done|]. congruence.
Qed.

(** C10. A message with event 'bts:subscription_succeeded' whose channel
    contains 'order_book' returns normally, emits nothing, and stores for
    the market of the channel a new empty book without nonce and with an
    empty buffer, whatever book was stored before; the books of the other
    markets are left alone. The next delta of that market is therefore
    buffered as the first delta of the new book and resolves nothing. *)
Theorem subscription_replaces_book (this : Exchange) (message : Message)
    (channel : string) :
  m_event message = Some "bts:subscription_succeeded"%string →
  m_channel message = Some channel →
  Js.contains "order_book" channel = true →
  let symbol := symbolOfChannel safeSymbol channel in
  let outcome :=
    handleMessage safeSymbol iso8601 handleTrade handleOrders message this in
  outcome = Returned tt (set_orderbooks (insert symbol orderBook) this) []
  ∧ orderbooks (state_of outcome) !! symbol = Some orderBook
  ∧ (∀ other, other ≠ symbol →
       orderbooks (state_of outcome) !! other = orderbooks this !! other)
  ∧ nonce orderBook = None ∧ cache orderBook = []
  ∧ toSortedArray None (bids orderBook) = []
  ∧ toSortedArray None (asks orderBook) = []
  ∧ ∀ next, symbolOf safeSymbol next = Some symbol →
      let after := handleOrderBook safeSymbol iso8601 next (state_of outcome) in
      returns after = true
      ∧ resolved_nonces (messageHashOf symbol) (log_of after) = []
      ∧ orderbooks (state_of after) !! symbol
        = Some (cache_push orderBook (m_data next)).
Proof.
  intros Hevent Hchannel Hcontains symbol outcome.
  assert (Hout :
    outcome = Returned tt (set_orderbooks (insert symbol orderBook) this) []).
  { unfold outcome, handleMessage, mbind, M_bind.
    rewrite (handleErrorMessage_other_event message _ this Hevent) by done.
    unfold Js.str_eq. rewrite Hevent, bool_decide_eq_true_2 by done.
    unfold handleSubscriptionStatus. rewrite Hchannel, Hcontains.
    unfold handleOrderBookSubscription. by rewrite Hchannel. }
  rewrite Hout. cbn [state_of set_orderbooks orderbooks].
  split; [done|]. split; [apply lookup_insert_eq|].
  split; [intros other Hne; by apply lookup_insert_ne|].
  do 4 (split; [done|]).
  intros next Hnext.
  rewrite (handleOrderBook_buffering safeSymbol iso8601 _ next symbol orderBook
             Hnext); [|apply lookup_insert_eq|done].
  cbn [returns log_of state_of set_orderbooks orderbooks].
  split; [done|]. split; [by destruct (_ =? _)|].
  apply lookup_insert_eq.
Qed.

End Subscription.

(** The acknowledgment for btcusd arrives while its book is live at nonce 10. *)
Lemma subscription_replaces_book_witness :
  handleMessage Scenario.safeSymbol Scenario.iso8601 Scenario.ignore
    Scenario.ignore Scenario.subscription_succeeded Scenario.live
  = Returned tt
      (set_orderbooks (insert "btcusd"%string orderBook) Scenario.live) [].
Proof.
  exact (proj1 (subscription_replaces_book Scenario.safeSymbol Scenario.iso8601
           Scenario.ignore Scenario.ignore Scenario.live
           Scenario.subscription_succeeded "diff_order_book_btcusd"%string
           eq_refl eq_refl eq_refl)).
Defined.

(** * Further properties of the code *)

(** ** getCacheIndex: the first delta with the nonce of the snapshot *)




(** ** test_order_book: what a passing order book looks like *)

Lemma bids_compareToNextItem_Sorted ls :
  TestOrderBook.bids_compareToNextItem ls = true
  ↔ Sorted (λ a b, price b < price a) ls.
Proof.
  induction ls as [|l rest IH]; simpl.
  { split; [constructor|done]. }
  rewrite andb_true_iff, IH. split.
  - intros [Hnext Hrest]. constructor; [done|].
    destruct rest as [|x rest']; constructor. lia.
  - intros Hs. apply Sorted_inv in Hs as [Hrest Hhd]. split; [|done].
    destruct rest as [|x rest']; [done|]. apply HdRel_inv in Hhd. lia.
Qed.

Lemma asks_compareToNextItem_Sorted ls :
  TestOrderBook.asks_compareToNextItem ls = true
  ↔ Sorted (λ a b, price a < price b) ls.
Proof.
  induction ls as [|l rest IH]; simpl.
  { split; [constructor|done]. }
  rewrite andb_true_iff, IH. split.
  - intros [Hnext Hrest]. constructor; [done|].
    destruct rest as [|x rest']; constructor. lia.
  - intros Hs. apply Sorted_inv in Hs as [Hrest Hhd]. split; [|done].
    destruct rest as [|x rest']; [done|]. apply HdRel_inv in Hhd. lia.
Qed.

Lemma descending_trans : Transitive (λ a b : PriceLevel, price b < price a).
Proof. intros a b c. lia. Qed.

Lemma ascending_trans : Transitive (λ a b : PriceLevel, price a < price b).
Proof. intros a b c. lia. Qed.

Lemma compareToNextItem_ordered (side : list PriceLevel) :
  (TestOrderBook.bids_compareToNextItem side = true
   ↔ StronglySorted (λ a b, price b < price a) side)
  ∧ (TestOrderBook.asks_compareToNextItem side = true
     ↔ StronglySorted (λ a b, price a < price b) side).
Proof.
  split.
  - rewrite bids_compareToNextItem_Sorted. split.
    + apply Sorted_StronglySorted, descending_trans.
    + apply StronglySorted_Sorted.
  - rewrite asks_compareToNextItem_Sorted. split.
    + apply Sorted_StronglySorted, ascending_trans.
    + apply StronglySorted_Sorted.
Qed.

(** X2. The assertions of test_order_book compare each level with the next
    one only; they pass exactly when the whole side is strictly ordered:
    every bid is above every later bid, every ask below every later ask. *)
Theorem compareToNextItem_iff_strictly_ordered (side : list PriceLevel) :
  (TestOrderBook.bids_compareToNextItem side = true
   ↔ StronglySorted (λ a b, price b < price a) side)
  ∧ (TestOrderBook.asks_compareToNextItem side = true
     ↔ StronglySorted (λ a b, price a < price b) side).
Proof. exact (compareToNextItem_ordered side). Qed.

Lemma test_order_book_all_assertions bids asks :
  TestOrderBook.test_order_book TestOrderBook.nothing_skipped bids asks = true
  ↔ TestOrderBook.bids_compareToNextItem bids = true
    ∧ TestOrderBook.compareToZero bids = true
    ∧ TestOrderBook.asks_compareToNextItem asks = true
    ∧ TestOrderBook.compareToZero asks = true
    ∧ TestOrderBook.spread bids asks = true.
Proof.
  unfold TestOrderBook.test_order_book. simpl.
  rewrite !andb_true_iff. tauto.
Qed.

(** X3. An order book on which test_order_book passes with nothing skipped
    is nowhere crossed, although only the first bid and the first ask are
    compared: every bid price is strictly below every ask price, and every
    price and every size is greater than zero. *)
Theorem test_order_book_passes_uncrossed (bids asks : list PriceLevel) :
  TestOrderBook.test_order_book TestOrderBook.nothing_skipped bids asks
  = true →
  (∀ bid ask, In bid bids → In ask asks → price bid < price ask)
  ∧ (∀ level, In level (bids ++ asks) →
              0 < price level ∧ 0 < size level).
Proof.
  rewrite test_order_book_all_assertions.
  intros (Hb & Hbz & Ha & Haz & Hspread). split.
  - apply compareToNextItem_ordered in Hb, Ha.
    intros bid ask Hbid Hask.
    destruct bids as [|b0 bs]; [destruct Hbid|].
    destruct asks as [|a0 as_]; [destruct Hask|].
    simpl in Hspread. apply Z.ltb_lt in Hspread.
    apply StronglySorted_inv in Hb as [_ Hb0].
    apply StronglySorted_inv in Ha as [_ Ha0].
    rewrite Forall_forall in Hb0, Ha0.
    assert (price bid ≤ price b0).
    { destruct Hbid as [<-|Hbid]; [lia|].
      apply list_elem_of_In, Hb0 in Hbid. lia. }
    assert (price a0 ≤ price ask).
    { destruct Hask as [<-|Hask]; [lia|].
      apply list_elem_of_In, Ha0 in Hask. lia. }
    lia.
  - intros level Hin. apply in_app_or in Hin.
    unfold TestOrderBook.compareToZero in Hbz, Haz.
    rewrite forallb_forall in Hbz, Haz.
    destruct Hin as [Hin|Hin]; [apply Hbz in Hin|apply Haz in Hin]; lia.
Qed.

(** The order book of the format example passes. *)
Lemma test_order_book_passes_uncrossed_witness :
  (∀ bid ask, In bid format_bids → In ask format_asks →
              price bid < price ask)
  ∧ (∀ level, In level (format_bids ++ format_asks) →
              0 < price level ∧ 0 < size level).
Proof.
  apply (test_order_book_passes_uncrossed format_bids format_asks).
  reflexivity.
Defined.

Lemma compareToNextItem_take n side :
  (TestOrderBook.bids_compareToNextItem side = true →
   TestOrderBook.bids_compareToNextItem (take n side) = true)
  ∧ (TestOrderBook.asks_compareToNextItem side = true →
     TestOrderBook.asks_compareToNextItem (take n side) = true).
Proof.
  split; intros Hs; apply compareToNextItem_ordered;
    apply compareToNextItem_ordered in Hs;
    by apply firstn_sorted.
Qed.

Lemma compareToZero_take n side :
  TestOrderBook.compareToZero side = true →
  TestOrderBook.compareToZero (take n side) = true.
Proof.
  revert n. induction side as [|l rest IH]; intros [|n]; simpl; try done.
  rewrite !andb_true_iff. intros [Hl Hrest]. split; [done|by apply IH].
Qed.

(** X4. Limiting the depth keeps an order book valid: if test_order_book
    passes on the bids and asks of a book, it passes on the first [n] bids
    and the first [n] asks, for every limit [n] and every set of skipped
    properties. *)
Theorem test_order_book_passes_on_limited_view (skipped : TestOrderBook.Skipped)
    (bids asks : list PriceLevel) (n : nat) :
  TestOrderBook.test_order_book TestOrderBook.nothing_skipped bids asks
  = true →
  TestOrderBook.test_order_book skipped (take n bids) (take n asks) = true.
Proof.
  rewrite test_order_book_all_assertions.
  intros (Hb & Hbz & Ha & Haz & Hspread).
  apply (proj1 (compareToNextItem_take n bids)) in Hb.
  apply (proj2 (compareToNextItem_take n asks)) in Ha.
  apply (compareToZero_take n) in Hbz as Hbz'.
  apply (compareToZero_take n) in Haz as Haz'.
  assert (Hspread' : TestOrderBook.spread (take n bids) (take n asks) = true).
  { destruct n; [done|]. by destruct bids, asks. }
  unfold TestOrderBook.test_order_book.
  rewrite Hb, Ha, Hbz', Haz', Hspread', !orb_true_r.
  by destruct (_ || _).
Qed.

(** The first level of each side of the format example. *)
Lemma test_order_book_passes_on_limited_view_witness :
  TestOrderBook.test_order_book TestOrderBook.nothing_skipped
    (take 1 format_bids) (take 1 format_asks) = true.
Proof.
  apply (test_order_book_passes_on_limited_view TestOrderBook.nothing_skipped
           format_bids format_asks 1).
  reflexivity.
Defined.

(** ** handleOrderBook: errors, isolation of markets, events *)

Section HandleOrderBookMore.

Variable safeSymbol : option string → string.
Variable iso8601 : option Z → option string.

(** X5. handleOrderBook throws exactly when the message has no channel or
    no book is stored for the market of its channel; it then throws a
    TypeError before anything is changed or emitted. In every other case it
    returns. *)
Theorem handleOrderBook_throws_iff (this : Exchange) (message : Message) :
  let outcome := handleOrderBook safeSymbol iso8601 message this in
  (returns outcome = true
   ↔ ∃ symbol book, symbolOf safeSymbol message = Some symbol
                    ∧ orderbooks this !! symbol = Some book)
  ∧ (returns outcome = false → outcome = Thrown TypeError this []).
Proof.
  intros outcome. subst outcome.
  destruct (symbolOf safeSymbol message) as [symbol|] eqn:Hsym.
  - destruct (orderbooks this !! symbol) as [book|] eqn:Hbook.
    + assert (Hret : returns (handleOrderBook safeSymbol iso8601 message this)
                     = true).
      { destruct (nonce book) as [n|] eqn:Hn.
        - destruct (Js.ge (Some n) (d_microtimestamp (m_data message)))
            eqn:Hge.
          + rewrite (handleOrderBook_stale _ _ this message symbol book);
              [done|done|done|by rewrite Hn].
          + by rewrite (handleOrderBook_live _ _ this message symbol book n).
        - by rewrite (handleOrderBook_buffering _ _ this message symbol book). }
      rewrite Hret. split; [|done]. split; [|done]. intros _.
      by exists symbol, book.
    + rewrite (handleOrderBook_no_book _ _ this message symbol) by done.
      split; [|done]. split; [done|].
      intros (s & b & [= <-] & Hb). congruence.
  - assert (Hc : m_channel message = None).
    { unfold symbolOf in Hsym. by destruct (m_channel message). }
    rewrite (handleOrderBook_no_channel _ _ this message Hc).
    split; [|done]. split; [done|]. by intros (s & b & Hs & _).
Qed.

Lemma handleOrderBook_others (this : Exchange) (message : Message) :
  let outcome := handleOrderBook safeSymbol iso8601 message this in
  (∀ other, symbolOf safeSymbol message ≠ Some other →
            orderbooks (state_of outcome) !! other = orderbooks this !! other)
  ∧ dom (orderbooks (state_of outcome)) = dom (orderbooks this)
  ∧ snapshotDelay (state_of outcome) = snapshotDelay this.
Proof.
  intros outcome. subst outcome.
  destruct (symbolOf safeSymbol message) as [symbol|] eqn:Hsym.
  - destruct (orderbooks this !! symbol) as [book|] eqn:Hbook.
    + assert (Hin : symbol ∈ dom (orderbooks this)).
      { apply elem_of_dom. by exists book. }
      destruct (nonce book) as [n|] eqn:Hn.
      * destruct (Js.ge (Some n) (d_microtimestamp (m_data message)))
          eqn:Hge.
        -- rewrite (handleOrderBook_stale _ _ this message symbol book);
             [done|done|done|by rewrite Hn].
        -- rewrite (handleOrderBook_live _ _ this message symbol book n)
             by done.
           cbn [state_of set_orderbooks orderbooks snapshotDelay].
           split; [|split; [|done]].
           ++ intros other Hne. apply lookup_insert_ne. congruence.
           ++ rewrite dom_insert_L. apply subseteq_union_1_L.
              by apply singleton_subseteq_l.
      * rewrite (handleOrderBook_buffering _ _ this message symbol book)
          by done.
        cbn [state_of set_orderbooks orderbooks snapshotDelay].
        split; [|split; [|done]].
        -- intros other Hne. apply lookup_insert_ne. congruence.
        -- rewrite dom_insert_L. apply subseteq_union_1_L.
           by apply singleton_subseteq_l.
    + by rewrite (handleOrderBook_no_book _ _ this message symbol).
  - assert (Hc : m_channel message = None).
    { unfold symbolOf in Hsym. by destruct (m_channel message). }
    by rewrite (handleOrderBook_no_channel _ _ this message Hc).
Qed.

Lemma handleOrderBook_log (this : Exchange) (message : Message) :
  let outcome := handleOrderBook safeSymbol iso8601 message this in
  (length (log_of outcome) ≤ 1)%nat
  ∧ ∀ ev, In ev (log_of outcome) →
      ∃ symbol book,
        symbolOf safeSymbol message = Some symbol
        ∧ orderbooks this !! symbol = Some book
        ∧ match ev with
          | Resolve resolved messageHash =>
              messageHash = messageHashOf symbol
              ∧ is_Some (nonce book)
              ∧ resolved = handleDelta iso8601 book (m_data message)
              ∧ orderbooks (state_of outcome) !! symbol = Some resolved
          | Spawn_loadOrderBook messageHash symbol' =>
              messageHash = messageHashOf symbol ∧ symbol' = symbol
              ∧ nonce book = None
              ∧ Z.of_nat (length (cache book)) = handleOption this 6
          end.
Proof.
  intros outcome. subst outcome.
  destruct (symbolOf safeSymbol message) as [symbol|] eqn:Hsym.
  - destruct (orderbooks this !! symbol) as [book|] eqn:Hbook.
    + destruct (nonce book) as [n|] eqn:Hn.
      * destruct (Js.ge (Some n) (d_microtimestamp (m_data message)))
          eqn:Hge.
        -- rewrite (handleOrderBook_stale _ _ this message symbol book);
             [|done|done|by rewrite Hn].
           simpl. split; [lia|]. by intros ev [].
        -- rewrite (handleOrderBook_live _ _ this message symbol book n)
             by done.
           cbn [log_of state_of set_orderbooks orderbooks length].
           split; [lia|]. intros ev [<-|[]].
           exists symbol, book. rewrite Hn, lookup_insert_eq.
           by repeat split.
      * rewrite (handleOrderBook_buffering _ _ this message symbol book)
          by done.
        cbn [log_of]. destruct (_ =? _) eqn:Heq; simpl.
        -- split; [lia|]. intros ev [<-|[]].
           exists symbol, book. repeat split; try done. lia.
        -- split; [lia|]. by intros ev [].
    + rewrite (handleOrderBook_no_book _ _ this message symbol) by done.
      simpl. split; [lia|]. by intros ev [].
  - assert (Hc : m_channel message = None).
    { unfold symbolOf in Hsym. by destruct (m_channel message). }
    rewrite (handleOrderBook_no_channel _ _ this message Hc).
    simpl. split; [lia|]. by intros ev [].
Qed.

(** X6. A message only touches the book of the market of its channel: the
    books of all other markets, the set of markets that have a book, and the
    configured snapshotDelay are the same after handleOrderBook. *)
Theorem handleOrderBook_market_isolation (this : Exchange)
    (message : Message) :
  let outcome := handleOrderBook safeSymbol iso8601 message this in
  (∀ other, symbolOf safeSymbol message ≠ Some other →
            orderbooks (state_of outcome) !! other = orderbooks this !! other)
  ∧ dom (orderbooks (state_of outcome)) = dom (orderbooks this)
  ∧ snapshotDelay (state_of outcome) = snapshotDelay this.
Proof. exact (handleOrderBook_others this message). Qed.

(** X7. One message emits at most one event. A resolve is emitted only for
    a book that had a nonce, under the message hash of the market, and the
    resolved book is the book that is now stored for the market, with the
    delta applied. A snapshot request is emitted only for a book without
    nonce whose buffer held exactly snapshotDelay deltas. *)
Theorem handleOrderBook_events (this : Exchange) (message : Message) :
  let outcome := handleOrderBook safeSymbol iso8601 message this in
  (length (log_of outcome) ≤ 1)%nat
  ∧ ∀ ev, In ev (log_of outcome) →
      ∃ symbol book,
        symbolOf safeSymbol message = Some symbol
        ∧ orderbooks this !! symbol = Some book
        ∧ match ev with
          | Resolve resolved messageHash =>
              messageHash = messageHashOf symbol
              ∧ is_Some (nonce book)
              ∧ resolved = handleDelta iso8601 book (m_data message)
              ∧ orderbooks (state_of outcome) !! symbol = Some resolved
          | Spawn_loadOrderBook messageHash symbol' =>
              messageHash = messageHashOf symbol ∧ symbol' = symbol
              ∧ nonce book = None
              ∧ Z.of_nat (length (cache book)) = handleOption this 6
          end.
Proof. exact (handleOrderBook_log this message). Qed.

(** X8. Delivering a delta twice is harmless on a live book: when the delta
    carries a nonce, handling the same message a second time changes
    nothing and resolves nothing, so that handling it twice is the same as
    handling it once. *)
Theorem handleOrderBook_duplicate_delta (this : Exchange) (message : Message)
    (symbol : string) (book : OrderBook) (n d : Z) :
  symbolOf safeSymbol message = Some symbol →
  orderbooks this !! symbol = Some book →
  nonce book = Some n →
  d_microtimestamp (m_data message) = Some d →
  forEach (handleOrderBook safeSymbol iso8601) [message; message] this
  = forEach (handleOrderBook safeSymbol iso8601) [message] this.
Proof.
  intros Hsym Hbook Hn Hd.
  rewrite (forEach_cons _ message [message]), (forEach_cons _ message []).
  destruct (Js.ge (Some n) (d_microtimestamp (m_data message))) eqn:Hge.
  - rewrite (handleOrderBook_stale _ _ this message symbol book);
      [|done|done|by rewrite Hn].
    rewrite forEach_cons.
    by rewrite (handleOrderBook_stale _ _ this message symbol book);
      [|done|done|rewrite Hn].
  - rewrite (handleOrderBook_live _ _ this message symbol book n) by done.
    set (book' := handleDelta iso8601 book (m_data message)).
    set (this' := set_orderbooks (insert symbol book') this).
    rewrite forEach_cons.
    rewrite (handleOrderBook_stale _ _ this' message symbol book');
      [done|done| |].
    + apply lookup_insert_eq.
    + simpl. rewrite Hd. simpl. lia.
Qed.

(** X9. A delta without microtimestamp is not dropped by a live book: it is
    applied and resolved, and it leaves the book without nonce, so that the
    deltas that follow are buffered instead of applied. *)
Theorem handleOrderBook_delta_without_nonce (this : Exchange)
    (message next : Message) (symbol : string) (book : OrderBook) (n : Z) :
  symbolOf safeSymbol message = Some symbol →
  symbolOf safeSymbol next = Some symbol →
  orderbooks this !! symbol = Some book →
  nonce book = Some n →
  d_microtimestamp (m_data message) = None →
  let applied := handleDelta iso8601 book (m_data message) in
  let outcome := handleOrderBook safeSymbol iso8601 message this in
  let outcome' := handleOrderBook safeSymbol iso8601 next (state_of outcome) in
  log_of outcome = [Resolve applied (messageHashOf symbol)]
  ∧ nonce applied = None
  ∧ orderbooks (state_of outcome') !! symbol
    = Some (cache_push applied (m_data next))
  ∧ resolved_nonces (messageHashOf symbol) (log_of outcome') = [].
Proof.
  intros Hsym Hnext Hbook Hn Hd applied outcome outcome'.
  subst outcome' outcome.
  rewrite (handleOrderBook_live _ _ this message symbol book n);
    [|done|done|done|by rewrite Hd].
  cbn [log_of state_of]. fold applied.
  split; [done|]. split; [done|].
  rewrite (handleOrderBook_buffering _ _ _ next symbol applied);
    [|done|apply lookup_insert_eq|done].
  cbn [log_of state_of set_orderbooks orderbooks].
  split; [apply lookup_insert_eq|]. by destruct (_ =? _).
Qed.

End HandleOrderBookMore.

(** The delta with nonce 11 of scenario 1, delivered twice to the live
    exchange. *)
Lemma handleOrderBook_duplicate_delta_witness :
  forEach (handleOrderBook Scenario.safeSymbol Scenario.iso8601)
    [Scenario.diff 11 [[100; 0]] []; Scenario.diff 11 [[100; 0]] []]
    Scenario.live
  = forEach (handleOrderBook Scenario.safeSymbol Scenario.iso8601)
      [Scenario.diff 11 [[100; 0]] []] Scenario.live.
Proof.
  apply (handleOrderBook_duplicate_delta Scenario.safeSymbol Scenario.iso8601
           Scenario.live (Scenario.diff 11 [[100; 0]] []) "btcusd"%string
           Scenario.book10 10 11); reflexivity.
Defined.

(** A delta without microtimestamp on the live exchange, then delta 12. *)
Lemma handleOrderBook_delta_without_nonce_witness :
  let message :=
    mkMessage (Some "data"%string) (Some "diff_order_book_btcusd"%string)
      (mkDelta (Some 1583656800) None (Some [[100; 0]]) None None) in
  log_of (handleOrderBook Scenario.safeSymbol Scenario.iso8601 message
            Scenario.live)
  = [Resolve (handleDelta Scenario.iso8601 Scenario.book10 (m_data message))
             (messageHashOf "btcusd"%string)].
Proof.
  intros message.
  apply (handleOrderBook_delta_without_nonce Scenario.safeSymbol
           Scenario.iso8601 Scenario.live message (Scenario.diff 12 [] [])
           "btcusd"%string Scenario.book10 10); reflexivity.
Defined.

(** ** handleOrderBook over a feed: buffering, requests, independence *)

Lemma forEach_returns handler message rest this :
  returns (forEach handler (message :: rest) this) = true →
  returns (handler message this) = true
  ∧ returns (forEach handler rest (state_of (handler message this))) = true.
Proof.
  rewrite forEach_cons. destruct (handler message this); simpl; [|done].
  by destruct (forEach handler rest this0).
Qed.

Lemma forEach_log handler message rest this :
  returns (handler message this) = true →
  log_of (forEach handler (message :: rest) this)
  = log_of (handler message this)
    ++ log_of (forEach handler rest (state_of (handler message this))).
Proof.
  rewrite forEach_cons. destruct (handler message this); simpl; [|done].
  by destruct (forEach handler rest this0).
Qed.

Lemma forEach_state handler message rest this :
  returns (handler message this) = true →
  state_of (forEach handler (message :: rest) this)
  = state_of (forEach handler rest (state_of (handler message this))).
Proof.
  rewrite forEach_cons. destruct (handler message this); simpl; [|done].
  by destruct (forEach handler rest this0).
Qed.

Lemma forEach_thrown handler message rest this :
  returns (handler message this) = false →
  forEach handler (message :: rest) this
  = Thrown (match handler message this with
            | Thrown e _ _ => e
            | Returned _ _ _ => TypeError
            end)
      (state_of (handler message this)) (log_of (handler message this)).
Proof. rewrite forEach_cons. by destruct (handler message this). Qed.

Section FeedMore.

Variable safeSymbol : option string → string.
Variable iso8601 : option Z → option string.

(** X10. While a book has no nonce, the deltas of its market are only
    buffered: after any number of them the bids, asks, timestamp and
    datetime of the book are what they were, the buffer has the deltas
    appended in arrival order, and no book has been resolved. *)
Theorem buffering_applies_nothing (this : Exchange) (symbol : string)
    (book : OrderBook) (messages : list Message) :
  orderbooks this !! symbol = Some book →
  nonce book = None →
  Forall (λ message, symbolOf safeSymbol message = Some symbol) messages →
  let outcome := forEach (handleOrderBook safeSymbol iso8601) messages this in
  orderbooks (state_of outcome) !! symbol
  = Some (mkBook (bids book) (asks book) (timestamp book) (datetime book)
            None (cache book ++ map m_data messages))
  ∧ ∀ resolved messageHash,
      ¬ In (Resolve resolved messageHash) (log_of outcome).
Proof.
  intros Hbook Hnonce Hall outcome. split.
  - subst outcome. revert this book Hbook Hnonce.
    induction Hall as [|message rest Hsym Hrest IH]; intros this book Hbook Hn.
    + simpl. rewrite Hbook, app_nil_r. destruct book; simpl in *. by subst.
    + rewrite forEach_state;
        rewrite (handleOrderBook_buffering _ _ this message symbol book)
          by done; [|done].
      cbn [state_of]. erewrite IH; [|apply lookup_insert_eq|done].
      simpl. by rewrite <- app_assoc.
  - destruct (forEach_buffering safeSymbol iso8601 messages this symbol book
                Hbook Hnonce Hall) as (_ & _ & _ & Hlog).
    fold outcome in Hlog. rewrite Hlog. intros resolved h.
    destruct (_ && _); simpl; [|tauto]. by intros [|[]].
Qed.

Lemma requests_app symbol log1 log2 :
  requests symbol (log1 ++ log2)
  = (requests symbol log1 + requests symbol log2)%nat.
Proof. unfold requests. by rewrite List.filter_app, length_app. Qed.

(** One message: the buffer of a market never shrinks and its book never
    disappears or appears; a request for the market is emitted only when its
    buffer goes from snapshotDelay to snapshotDelay + 1 deltas. *)
Lemma handleOrderBook_request_step this message symbol :
  let outcome := handleOrderBook safeSymbol iso8601 message this in
  handleOption (state_of outcome) 6 = handleOption this 6
  ∧ (held this symbol = None → held (state_of outcome) symbol = None)
  ∧ (∀ k, held this symbol = Some k →
          ∃ k', held (state_of outcome) symbol = Some k' ∧ k ≤ k')
  ∧ (requests symbol (log_of outcome) = 0%nat
     ∨ (requests symbol (log_of outcome) = 1%nat
        ∧ held this symbol = Some (handleOption this 6)
        ∧ held (state_of outcome) symbol = Some (handleOption this 6 + 1))).
Proof.
  intros outcome.
  destruct (handleOrderBook_others safeSymbol iso8601 this message)
    as (Hother & _ & Hdelay). fold outcome in Hother, Hdelay.
  split; [unfold handleOption; by rewrite Hdelay|].
  destruct (handleOrderBook_log safeSymbol iso8601 this message)
    as [Hlen Hev]. fold outcome in Hlen, Hev.
  destruct (decide (symbolOf safeSymbol message = Some symbol)) as [Hsym|Hne].
  - subst outcome. unfold held.
    destruct (orderbooks this !! symbol) as [book|] eqn:Hbook.
    + destruct (nonce book) as [n|] eqn:Hn.
      * destruct (Js.ge (Some n) (d_microtimestamp (m_data message)))
          eqn:Hge.
        -- rewrite (handleOrderBook_stale _ _ this message symbol book);
             [|done|done|by rewrite Hn].
           cbn [state_of log_of]. rewrite Hbook. simpl.
           split; [done|]. split; [|by left].
           intros k [= <-]. eexists. split; [done|lia].
        -- rewrite (handleOrderBook_live _ _ this message symbol book n)
             by done.
           cbn [state_of log_of set_orderbooks orderbooks].
           rewrite lookup_insert_eq. simpl.
           split; [done|]. split; [|by left].
           intros k [= <-]. eexists. split; [done|lia].
      * rewrite (handleOrderBook_buffering _ _ this message symbol book)
          by done.
        cbn [state_of log_of set_orderbooks orderbooks].
        rewrite lookup_insert_eq. simpl. rewrite length_app. simpl.
        split; [done|]. split.
        { intros k [= <-]. eexists. split; [done|lia]. }
        destruct (_ =? _) eqn:Heq.
        -- right. unfold requests. simpl. rewrite String.eqb_refl. simpl.
           split; [done|]. apply Z.eqb_eq in Heq. rewrite <- Heq.
           split; [done|]. f_equal. lia.
        -- by left.
    + rewrite (handleOrderBook_no_book _ _ this message symbol) by done.
      cbn [state_of log_of]. rewrite Hbook. simpl.
      split; [done|]. split; [done|by left].
  - unfold held. rewrite Hother by done.
    split; [done|]. split; [intros k Hk; exists k; split; [done|lia]|].
    left. unfold requests.
    destruct (log_of outcome) as [|ev log]; [done|].
    destruct log; [|simpl in Hlen; lia].
    destruct (Hev ev (or_introl eq_refl)) as (s & b & Hs & _ & Hmatch).
    destruct ev as [h s'|resolved h]; [|done].
    destruct Hmatch as (_ & -> & _). simpl.
    destruct (String.eqb_spec s symbol) as [->|]; [congruence|done].
Qed.

Lemma requests_at_most_once_aux messages : ∀ this symbol,
  let r := requests symbol
             (log_of (forEach (handleOrderBook safeSymbol iso8601)
                        messages this)) in
  (r ≤ 1)%nat
  ∧ (held this symbol = None → r = 0%nat)
  ∧ (∀ k, held this symbol = Some k → handleOption this 6 < k →
          r = 0%nat).
Proof.
  induction messages as [|message rest IH]; intros this symbol.
  { simpl. unfold requests. simpl. split; [lia|done]. }
  destruct (handleOrderBook_request_step this message symbol)
    as (Hopt & Hnone & Hsome & Hreq).
  cbv zeta.
  destruct (returns (handleOrderBook safeSymbol iso8601 message this))
    eqn:Hret.
  - rewrite forEach_log by done. rewrite requests_app.
    specialize (IH (state_of (handleOrderBook safeSymbol iso8601 message this))
                  symbol).
    cbv zeta in IH. rewrite Hopt in IH. destruct IH as (IH1 & IH2 & IH3).
    destruct Hreq as [Hzero|(Hone & Hbefore & Hafter)].
    + rewrite Hzero. simpl. split; [done|]. split.
      * intros Hn. apply IH2. by apply Hnone.
      * intros k Hk Hlt. destruct (Hsome k Hk) as (k' & Hk' & Hle).
        apply (IH3 k' Hk'). lia.
    + rewrite Hone. rewrite (IH3 _ Hafter) by lia.
      split; [lia|]. split.
      * intros Hn. congruence.
      * intros k Hk Hlt. rewrite Hbefore in Hk. injection Hk as <-. lia.
  - rewrite forEach_thrown by done. cbn [log_of].
    destruct Hreq as [Hzero|(Hone & Hbefore & Hafter)].
    + rewrite Hzero. split; [lia|done].
    + rewrite Hone. split; [lia|]. split.
      * intros Hn. congruence.
      * intros k Hk Hlt. rewrite Hbefore in Hk. injection Hk as <-. lia.
Qed.

(** X11. Whatever messages a feed delivers, for whatever markets and
    whether their books are live or not, handleOrderBook requests the
    snapshot of a market at most once over the whole feed, and never for a
    market whose buffer already holds more than snapshotDelay deltas. *)
Theorem snapshot_requested_at_most_once (this : Exchange)
    (messages : list Message) (symbol : string) :
  let log :=
    log_of (forEach (handleOrderBook safeSymbol iso8601) messages this) in
  (requests symbol log ≤ 1)%nat
  ∧ (∀ k, held this symbol = Some k → handleOption this 6 < k →
          requests symbol log = 0%nat).
Proof.
  intros log.
  destruct (requests_at_most_once_aux messages this symbol) as (H1 & _ & H3).
  by split.
Qed.

End FeedMore.

(** Three deltas buffered on the new book of the fresh exchange. *)
Lemma buffering_applies_nothing_witness :
  orderbooks (state_of (forEach (handleOrderBook Scenario.safeSymbol
                                   Scenario.iso8601)
                          (Scenario.diffs 3) Scenario.fresh))
    !! "btcusd"%string
  = Some (mkBook (emptySide Bids) (emptySide Asks) None None None
            (map m_data (Scenario.diffs 3))).
Proof.
  assert (Hall : Forall (λ message, symbolOf Scenario.safeSymbol message
                                    = Some "btcusd"%string) (Scenario.diffs 3)).
  { repeat (constructor; [reflexivity|]). constructor. }
  exact (proj1 (buffering_applies_nothing Scenario.safeSymbol Scenario.iso8601
           Scenario.fresh "btcusd"%string orderBook (Scenario.diffs 3)
           eq_refl eq_refl Hall)).
Defined.

(** Eight deltas on the fresh exchange: one request, by the seventh. *)
Example one_request_in_eight_deltas :
  requests "btcusd"
    (log_of (forEach (handleOrderBook Scenario.safeSymbol Scenario.iso8601)
               (Scenario.diffs 8) Scenario.fresh)) = 1%nat.
Proof. reflexivity. Qed.

(** ** Independence of the markets *)

Section Independence.

Variable safeSymbol : option string → string.
Variable iso8601 : option Z → option string.

(** On two exchanges that store the same book for the market of the message
    and have the same snapshotDelay, handleOrderBook does the same. *)
Lemma handleOrderBook_agree this1 this2 message symbol :
  symbolOf safeSymbol message = Some symbol →
  orderbooks this1 !! symbol = orderbooks this2 !! symbol →
  snapshotDelay this1 = snapshotDelay this2 →
  let outcome1 := handleOrderBook safeSymbol iso8601 message this1 in
  let outcome2 := handleOrderBook safeSymbol iso8601 message this2 in
  returns outcome1 = returns outcome2
  ∧ log_of outcome1 = log_of outcome2
  ∧ orderbooks (state_of outcome1) !! symbol
    = orderbooks (state_of outcome2) !! symbol.
Proof.
  intros Hsym Hsame Hdelay outcome1 outcome2. subst outcome1 outcome2.
  assert (Hopt : handleOption this1 6 = handleOption this2 6).
  { unfold handleOption. by rewrite Hdelay. }
  destruct (orderbooks this1 !! symbol) as [book|] eqn:Hbook.
  - symmetry in Hsame. destruct (nonce book) as [n|] eqn:Hn.
    + destruct (Js.ge (Some n) (d_microtimestamp (m_data message))) eqn:Hge.
      * rewrite (handleOrderBook_stale _ _ this1 message symbol book);
          [|done|done|by rewrite Hn].
        rewrite (handleOrderBook_stale _ _ this2 message symbol book);
          [|done|done|by rewrite Hn].
        cbn [returns log_of state_of]. by rewrite Hbook, Hsame.
      * rewrite (handleOrderBook_live _ _ this1 message symbol book n) by done.
        rewrite (handleOrderBook_live _ _ this2 message symbol book n) by done.
        cbn [returns log_of state_of set_orderbooks orderbooks].
        by rewrite !lookup_insert_eq.
    + rewrite (handleOrderBook_buffering _ _ this1 message symbol book) by done.
      rewrite (handleOrderBook_buffering _ _ this2 message symbol book) by done.
      cbn [returns log_of state_of set_orderbooks orderbooks].
      by rewrite !lookup_insert_eq, Hopt.
  - symmetry in Hsame.
    rewrite (handleOrderBook_no_book _ _ this1 message symbol) by done.
    rewrite (handleOrderBook_no_book _ _ this2 message symbol) by done.
    cbn [returns log_of state_of]. by rewrite Hbook, Hsame.
Qed.

(** Every event of a message concerns the market of the message. *)
Lemma handleOrderBook_concerns this message symbol :
  List.filter (concerns symbol)
    (log_of (handleOrderBook safeSymbol iso8601 message this))
  = if decide (symbolOf safeSymbol message = Some symbol)
    then log_of (handleOrderBook safeSymbol iso8601 message this) else [].
Proof.
  destruct (handleOrderBook_log safeSymbol iso8601 this message)
    as [Hlen Hev].
  destruct (log_of (handleOrderBook safeSymbol iso8601 message this))
    as [|ev log]; [by destruct (decide _)|].
  destruct log; [|simpl in Hlen; lia].
  destruct (Hev ev (or_introl eq_refl)) as (s & b & Hs & _ & Hmatch).
  assert (Hc : concerns symbol ev = bool_decide (s = symbol)).
  { destruct ev as [h s'|resolved h]; simpl.
    - destruct Hmatch as (_ & -> & _).
      destruct (String.eqb_spec s symbol) as [->|Hne].
      + by rewrite bool_decide_eq_true_2.
      + by rewrite bool_decide_eq_false_2.
    - destruct Hmatch as (-> & _).
      destruct (String.eqb_spec (messageHashOf s) (messageHashOf symbol))
        as [Heq|Hne].
      + apply messageHashOf_inj in Heq. by rewrite bool_decide_eq_true_2.
      + rewrite bool_decide_eq_false_2; [done|]. by intros ->. }
  simpl. rewrite Hc, Hs.
  destruct (decide (Some s = Some symbol)) as [[= ->]|Hne].
  - by rewrite bool_decide_eq_true_2.
  - rewrite bool_decide_eq_false_2; [done|]. by intros ->.
Qed.

Lemma forEach_returns_cons handler message rest this :
  returns (handler message this) = true →
  returns (forEach handler rest (state_of (handler message this))) = true →
  returns (forEach handler (message :: rest) this) = true.
Proof.
  rewrite forEach_cons. destruct (handler message this); simpl; [|done].
  by destruct (forEach handler rest this0).
Qed.

Lemma markets_are_independent_aux messages symbol : ∀ this1 this2,
  let handler := handleOrderBook safeSymbol iso8601 in
  let own :=
    List.filter (λ m, bool_decide (symbolOf safeSymbol m = Some symbol))
                messages in
  orderbooks this1 !! symbol = orderbooks this2 !! symbol →
  snapshotDelay this1 = snapshotDelay this2 →
  returns (forEach handler messages this1) = true →
  returns (forEach handler own this2) = true
  ∧ orderbooks (state_of (forEach handler messages this1)) !! symbol
    = orderbooks (state_of (forEach handler own this2)) !! symbol
  ∧ List.filter (concerns symbol) (log_of (forEach handler messages this1))
    = log_of (forEach handler own this2).
Proof.
  induction messages as [|message rest IH]; intros this1 this2 handler own
    Hsame Hdelay Hret; subst handler own.
  { by simpl. }
  apply forEach_returns in Hret as [Hstep Hrest].
  destruct (handleOrderBook_others safeSymbol iso8601 this1 message)
    as (Hother1 & _ & Hdelay1).
  rewrite forEach_log, forEach_state by done.
  rewrite List.filter_app, handleOrderBook_concerns.
  simpl.
  destruct (decide (symbolOf safeSymbol message = Some symbol)) as [Hsym|Hne].
  - rewrite bool_decide_eq_true_2 by done.
    destruct (handleOrderBook_others safeSymbol iso8601 this2
                message) as (_ & _ & Hdelay2).
    destruct (handleOrderBook_agree this1 this2 message symbol Hsym Hsame
                Hdelay) as (Hr & Hl & Hs).
    specialize
      (IH (state_of (handleOrderBook safeSymbol iso8601 message this1))
          (state_of (handleOrderBook safeSymbol iso8601 message this2))).
    cbv zeta in IH.
    destruct IH as (IHret & IHstate & IHlog); [done|congruence|done|].
    assert (Hstep2 :
      returns (handleOrderBook safeSymbol iso8601 message this2) = true)
      by congruence.
    split; [by apply forEach_returns_cons|].
    rewrite forEach_log, forEach_state by done.
    split; [done|]. by rewrite Hl, IHlog.
  - rewrite bool_decide_eq_false_2 by done.
    specialize
      (IH (state_of (handleOrderBook safeSymbol iso8601 message this1))
          this2).
    cbv zeta in IH.
    destruct IH as (IHret & IHstate & IHlog); [|congruence|done|].
    { rewrite Hother1; [done|]. intros H. by apply Hne. }
    by split.
Qed.

(** X12. The markets are independent: when a feed of deltas for several
    markets is handled without error, the book of a market ends up as if
    only the deltas of that market had been delivered, and the events for
    that market (snapshot requests and resolved books) are the same, in the
    same order. *)
Theorem markets_are_independent (this : Exchange) (messages : list Message)
    (symbol : string) :
  let handler := handleOrderBook safeSymbol iso8601 in
  let own :=
    List.filter (λ m, bool_decide (symbolOf safeSymbol m = Some symbol))
                messages in
  returns (forEach handler messages this) = true →
  returns (forEach handler own this) = true
  ∧ orderbooks (state_of (forEach handler messages this)) !! symbol
    = orderbooks (state_of (forEach handler own this)) !! symbol
  ∧ List.filter (concerns symbol) (log_of (forEach handler messages this))
    = log_of (forEach handler own this).
Proof.
  intros handler own Hret.
  by apply (markets_are_independent_aux messages symbol this this).
Qed.

End Independence.

(** Deltas for btcusd and for ethusd, interleaved; the market is btcusd. *)
Lemma markets_are_independent_witness :
  let handler := handleOrderBook Scenario.safeSymbol Scenario.iso8601 in
  let messages :=
    [Scenario.diff 11 [[100; 0]] []; diff_ethusd 1; Scenario.diff 12 [] [];
     diff_ethusd 2] in
  List.filter (concerns "btcusd")
    (log_of (forEach handler messages two_markets))
  = log_of (forEach handler
              [Scenario.diff 11 [[100; 0]] []; Scenario.diff 12 [] []]
              two_markets).
Proof.
  intros handler messages.
  exact (proj2 (proj2 (markets_are_independent Scenario.safeSymbol
           Scenario.iso8601 two_markets messages "btcusd"%string eq_refl))).
Defined.

(** ** The order of the sides is kept by every delta *)

(** A side is in the canonical order of its kind. *)
Lemma storeArray_ordered bidAsk side :
  StronglySorted (before (kind side)) (levels side) →
  kind (storeArray bidAsk side) = kind side
  ∧ StronglySorted (before (kind side)) (levels (storeArray bidAsk side)).
Proof.
  intros Hs. destruct bidAsk as [[p|] [s|]]; simpl; try done.
  split; [done|]. by apply upsertLevels_sorted.
Qed.

Lemma handleBidAsks_ordered bidAsks : ∀ side,
  StronglySorted (before (kind side)) (levels side) →
  kind (handleBidAsks side bidAsks) = kind side
  ∧ StronglySorted (before (kind side)) (levels (handleBidAsks side bidAsks)).
Proof.
  induction bidAsks as [|raw rest IH]; intros side Hs; [done|].
  change (handleBidAsks side (raw :: rest))
    with (handleBidAsks (storeArray (parseBidAsk raw) side) rest).
  destruct (storeArray_ordered (parseBidAsk raw) side Hs) as [Hk Hs'].
  rewrite <- Hk in Hs'. destruct (IH _ Hs') as [Hk' Hs''].
  split; [congruence|by rewrite <- Hk].
Qed.

Lemma handleDelta_well_ordered iso8601 book delta :
  well_ordered book → well_ordered (handleDelta iso8601 book delta).
Proof.
  intros (Hkb & Hka & Hb & Ha). unfold well_ordered, handleDelta. simpl.
  rewrite <- Hkb in Hb. rewrite <- Hka in Ha.
  destruct (handleBidAsks_ordered (default [] (d_bids delta)) _ Hb)
    as [Hkb' Hb'].
  destruct (handleBidAsks_ordered (default [] (d_asks delta)) _ Ha)
    as [Hka' Ha'].
  rewrite Hkb, Hka in *. by repeat split.
Qed.

Section OrderedFeed.

Variable safeSymbol : option string → string.
Variable iso8601 : option Z → option string.

Lemma handleOrderBook_well_ordered this message :
  map_Forall (λ _ book, well_ordered book) (orderbooks this) →
  let outcome := handleOrderBook safeSymbol iso8601 message this in
  map_Forall (λ _ book, well_ordered book) (orderbooks (state_of outcome))
  ∧ ∀ resolved h, In (Resolve resolved h) (log_of outcome) →
                  well_ordered resolved.
Proof.
  intros Hall outcome. subst outcome.
  destruct (symbolOf safeSymbol message) as [symbol|] eqn:Hsym.
  - destruct (orderbooks this !! symbol) as [book|] eqn:Hbook.
    + pose proof (Hall symbol book Hbook) as Hwell.
      destruct (nonce book) as [n|] eqn:Hn.
      * destruct (Js.ge (Some n) (d_microtimestamp (m_data message)))
          eqn:Hge.
        -- rewrite (handleOrderBook_stale _ _ this message symbol book);
             [|done|done|by rewrite Hn].
           split; [done|]. by intros resolved h [].
        -- rewrite (handleOrderBook_live _ _ this message symbol book n)
             by done.
           cbn [state_of log_of set_orderbooks orderbooks].
           pose proof (handleDelta_well_ordered iso8601 book (m_data message)
                         Hwell) as Hwell'.
           split; [by apply map_Forall_insert_2|].
           intros resolved h [[= <- _]|[]]. done.
      * rewrite (handleOrderBook_buffering _ _ this message symbol book)
          by done.
        cbn [state_of log_of set_orderbooks orderbooks].
        split; [by apply map_Forall_insert_2|].
        intros resolved h. destruct (_ =? _); simpl; [|tauto].
        by intros [|[]].
    + rewrite (handleOrderBook_no_book _ _ this message symbol) by done.
      split; [done|]. by intros resolved h [].
  - assert (Hc : m_channel message = None).
    { unfold symbolOf in Hsym. by destruct (m_channel message). }
    rewrite (handleOrderBook_no_channel _ _ this message Hc).
    split; [done|]. by intros resolved h [].
Qed.

(** X13. The order of the sides is an invariant of the feed: if the sides of
    every stored book are strictly ordered (bids descending, asks
    ascending), then after any sequence of messages they still are, and
    every book that was resolved on the way passes the compare-to-next-item
    assertions of test_order_book on its bids and on its asks. (What is
    stored into a side is the upsert modelled from the specification.) *)
Theorem feed_keeps_books_ordered (this : Exchange) (messages : list Message) :
  map_Forall (λ _ book, well_ordered book) (orderbooks this) →
  let outcome := forEach (handleOrderBook safeSymbol iso8601) messages this in
  map_Forall (λ _ book, well_ordered book) (orderbooks (state_of outcome))
  ∧ ∀ resolved h limit,
      In (Resolve resolved h) (log_of outcome) →
      TestOrderBook.bids_compareToNextItem
        (toSortedArray limit (bids resolved)) = true
      ∧ TestOrderBook.asks_compareToNextItem
          (toSortedArray limit (asks resolved)) = true.
Proof.
  intros Hall outcome.
  assert (Hinv :
    map_Forall (λ _ book, well_ordered book) (orderbooks (state_of outcome))
    ∧ ∀ resolved h, In (Resolve resolved h) (log_of outcome) →
                    well_ordered resolved).
  { subst outcome. revert this Hall.
    induction messages as [|message rest IH]; intros this Hall.
    { split; [done|]. by intros resolved h []. }
    destruct (handleOrderBook_well_ordered this message Hall) as [Hst Hlog].
    destruct (returns (handleOrderBook safeSymbol iso8601 message this))
      eqn:Hret.
    - rewrite forEach_state, forEach_log by done.
      destruct (IH _ Hst) as [IHst IHlog]. split; [done|].
      intros resolved h Hin. apply in_app_or in Hin as [Hin|Hin]; eauto.
    - rewrite forEach_thrown by done. by split. }
  destruct Hinv as [Hst Hlog]. split; [done|].
  intros resolved h limit Hin.
  destruct (Hlog resolved h Hin) as (Hkb & Hka & Hb & Ha).
  split.
  - apply bids_compareToNextItem_sorted. rewrite <- Hkb.
    apply toSortedArray_sorted. by rewrite Hkb.
  - apply asks_compareToNextItem_sorted. rewrite <- Hka.
    apply toSortedArray_sorted. by rewrite Hka.
Qed.

End OrderedFeed.

Lemma book10_well_ordered : well_ordered Scenario.book10.
Proof. repeat split; repeat constructor. Qed.

(** The live exchange, whose only book is the book of scenario 1. *)
Lemma feed_keeps_books_ordered_witness :
  map_Forall (λ _ book, well_ordered book)
    (orderbooks (state_of (forEach (handleOrderBook Scenario.safeSymbol
                                      Scenario.iso8601)
                             [Scenario.diff 11 [[102; 1]; [99; 4]] [[103; 2]]]
                             Scenario.live))).
Proof.
  refine (proj1 (feed_keeps_books_ordered Scenario.safeSymbol Scenario.iso8601
            Scenario.live [Scenario.diff 11 [[102; 1]; [99; 4]] [[103; 2]]] _)).
  apply map_Forall_insert_2; [|apply map_Forall_empty].
  repeat split; repeat constructor.
Defined.

(** ** Channels: from the watch methods to the handlers and back *)

Lemma index_cons key c s :
  String.index 0 key (String c s)
  = if String.prefix key (String c s) then Some 0%nat
    else match String.index 0 key s with
         | Some n => Some (S n)
         | None => None
         end.
Proof. reflexivity. Qed.

Lemma prefix_cons k key c s :
  String.prefix (String k key) (String c s)
  = match ascii_dec k c with
    | left _ => String.prefix key s
    | right _ => false
    end.
Proof. reflexivity. Qed.

Lemma prefix_empty s : String.prefix "" s = true.
Proof. by destruct s. Qed.

Lemma contains_underscore_cons c s :
  Js.contains "_" (String c s) = false
  ↔ c ≠ "_"%char ∧ Js.contains "_" s = false.
Proof.
  unfold Js.contains. rewrite index_cons, prefix_cons, prefix_empty.
  destruct (ascii_dec "_" c) as [<-|Hne].
  - split; [done|]. by intros [? _].
  - destruct (String.index 0 "_" s); split; try done; try by intros [_ ?].
Qed.

Lemma prefix_needs_underscore key : ∀ s,
  In "_"%char (chars key) → Js.contains "_" s = false →
  String.prefix key s = false.
Proof.
  induction key as [|k key IH]; intros s Hin Hs; [destruct Hin|].
  destruct s as [|c s]; [done|]. rewrite prefix_cons.
  apply contains_underscore_cons in Hs as [Hc Hs].
  destruct (ascii_dec k c) as [->|Hne]; [|done].
  destruct Hin as [Hin|Hin]; [congruence|]. by apply IH.
Qed.

(** A key with an underscore does not occur in a text without one. *)
Lemma contains_needs_underscore key s :
  In "_"%char (chars key) → Js.contains "_" s = false →
  String.index 0 key s = None.
Proof.
  intros Hin. induction s as [|c s IH]; intros Hs.
  - destruct key; [destruct Hin|done].
  - pose proof (prefix_needs_underscore key (String c s) Hin Hs) as Hp.
    apply contains_underscore_cons in Hs as [Hc Hs].
    by rewrite index_cons, Hp, (IH Hs).
Qed.

Lemma split_without_separator s :
  Js.contains "_" s = false → Js.split "_" s = [s].
Proof.
  induction s as [|c s IH]; intros Hs; [done|].
  apply contains_underscore_cons in Hs as [Hc Hs]. simpl.
  destruct (Ascii.eqb_spec c "_"); [done|]. by rewrite (IH Hs).
Qed.

Lemma split_at_first_separator a b :
  Js.contains "_" a = false →
  Js.split "_" (a +:+ String "_" b) = a :: Js.split "_" b.
Proof.
  induction a as [|c a IH]; intros Ha; [done|].
  apply contains_underscore_cons in Ha as [Hc Ha].
  change (String c a +:+ String "_" b) with (String c (a +:+ String "_" b)).
  simpl. destruct (Ascii.eqb_spec c "_"); [done|]. by rewrite (IH Ha).
Qed.

Lemma bind_ret_unit (m : M unit) this :
  (m ;; mret tt) this = m this.
Proof.
  unfold mbind, M_bind, mret, M_ret.
  destruct (m this) as [[] this1 log1|e this1 log1]; [|done].
  by rewrite app_nil_r.
Qed.

Section Channels.

Variable safeSymbol : option string → string.
Variable iso8601 : option Z → option string.
Variable handleTrade handleOrders : Message → M unit.

Lemma handleErrorMessage_no_error message this :
  m_event message ≠ Some "bts:error"%string →
  handleErrorMessage message this = Returned message this [].
Proof.
  intros Hne. unfold handleErrorMessage, Js.str_eq.
  by rewrite bool_decide_eq_false_2.
Qed.

Lemma handleMessage_subject message this :
  m_event message ≠ Some "bts:error"%string →
  m_event message ≠ Some "bts:subscription_succeeded"%string →
  handleMessage safeSymbol iso8601 handleTrade handleOrders message this
  = handleSubject safeSymbol iso8601 handleTrade handleOrders message this.
Proof.
  intros Herr Hack. unfold handleMessage, mbind, M_bind.
  rewrite handleErrorMessage_no_error by done.
  unfold Js.str_eq. rewrite bool_decide_eq_false_2 by done.
  by destruct (handleSubject _ _ _ _ message this).
Qed.

(** The fourth part of a channel of order-book deltas starts the market id. *)
Lemma symbolOfChannel_diff id :
  symbolOfChannel safeSymbol ("diff_order_book_" +:+ id)
  = safeSymbol (Js.split "_" id !! 0%nat).
Proof. reflexivity. Qed.

(** X14. The channel that watchOrderBook subscribes to leads back to the
    same market: for a market id without underscore, a data message on that
    channel is handled by handleOrderBook and by no other handler, on the
    book stored under safeSymbol of the market id; and when that symbol is
    the symbol of the market, a book resolved by the message is resolved
    under the message hash on which watchOrderBook waits. *)
Theorem watchOrderBook_channel_round_trip (market : Market) (message : Message)
    (this : Exchange) :
  Js.contains "_" (market_id market) = false →
  m_channel message = Some (sub_channel (watchOrderBook market)) →
  m_event message ≠ Some "bts:error"%string →
  m_event message ≠ Some "bts:subscription_succeeded"%string →
  let outcome :=
    handleMessage safeSymbol iso8601 handleTrade handleOrders message this in
  symbolOf safeSymbol message = Some (safeSymbol (Some (market_id market)))
  ∧ outcome = handleOrderBook safeSymbol iso8601 message this
  ∧ (safeSymbol (Some (market_id market)) = market_symbol market →
     ∀ resolved h, In (Resolve resolved h) (log_of outcome) →
                   h = sub_messageHash (watchOrderBook market)).
Proof.
  intros Hid Hchannel Herr Hack outcome.
  assert (Hsym : symbolOf safeSymbol message
                 = Some (safeSymbol (Some (market_id market)))).
  { unfold symbolOf. rewrite Hchannel. simpl. f_equal.
    unfold symbolOfChannel. simpl.
    change ("" +:+ market_id market) with (market_id market).
    by rewrite (split_without_separator _ Hid). }
  assert (Hout : outcome = handleOrderBook safeSymbol iso8601 message this).
  { subst outcome. rewrite handleMessage_subject by done.
    unfold handleSubject. rewrite Hchannel.
    unfold methods, handleSubject_loop, Js.contains. simpl.
    change ("" +:+ market_id market) with (market_id market).
    rewrite (contains_needs_underscore "live_trades" _); [|simpl; tauto|done].
    rewrite (contains_needs_underscore "private-my_orders" _);
      [|simpl; tauto|done].
    unfold mbind, M_bind, mret, M_ret.
    destruct (handleOrderBook safeSymbol iso8601 message this)
      as [[] this1 log1|e this1 log1]; [|done].
    by rewrite !app_nil_r. }
  split; [done|]. split; [done|].
  intros Hmarket resolved h Hin. rewrite Hout in Hin.
  destruct (handleOrderBook_log safeSymbol iso8601 this message)
    as [_ Hev].
  destruct (Hev _ Hin) as (s & b & Hs & _ & -> & _).
  rewrite Hsym in Hs. injection Hs as <-. by rewrite Hmarket.
Qed.

(** X15. The market id is taken from the channel up to its next
    underscore: for a market whose id has an underscore, the channel of
    watchOrderBook is attributed to the part of the id before the first
    underscore, so that two such markets with the same first part share
    one book. *)
Theorem market_id_cut_at_underscore (first rest symbol : string) :
  Js.contains "_" first = false →
  let market := mkMarket (first +:+ "_" +:+ rest) symbol in
  symbolOfChannel safeSymbol (sub_channel (watchOrderBook market))
  = safeSymbol (Some first).
Proof.
  intros Hfirst market.
  change (symbolOfChannel safeSymbol
            ("diff_order_book_" +:+ (first +:+ String "_" rest))
          = safeSymbol (Some first)).
  by rewrite symbolOfChannel_diff, (split_at_first_separator _ _ Hfirst).
Qed.

Lemma contains_underscore_app a b :
  Js.contains "_" a = false → Js.contains "_" b = false →
  Js.contains "_" (a +:+ b) = false.
Proof.
  intros Ha Hb. induction a as [|c a IH]; [done|].
  apply contains_underscore_cons in Ha as [Hc Ha].
  change (String c a +:+ b) with (String c (a +:+ b)).
  apply contains_underscore_cons. split; [done|by apply IH].
Qed.

(** X16. The channels of watchTrades and of watchOrders never reach
    handleOrderBook: for a market id and a user id without underscore, a
    message on the channel of watchTrades is handled by handleTrade alone,
    and a message on the channel that watchOrders subscribes to through
    subscribePrivate is handled by handleOrders alone. *)
Theorem trade_and_order_channels_routing (market : Market) (userId : string)
    (message : Message) (this : Exchange) :
  Js.contains "_" (market_id market) = false →
  Js.contains "_" userId = false →
  (m_channel message = Some (sub_channel (watchTrades market)) →
   handleSubject safeSymbol iso8601 handleTrade handleOrders message this
   = handleTrade message this)
  ∧ (m_channel message = Some (sub_channel (watchOrders market userId)) →
     handleSubject safeSymbol iso8601 handleTrade handleOrders message this
     = handleOrders message this).
Proof.
  intros Hid Huser. split; intros Hchannel.
  - unfold handleSubject. rewrite Hchannel.
    unfold methods, handleSubject_loop, Js.contains. simpl.
    change ("" +:+ market_id market) with (market_id market).
    rewrite (contains_needs_underscore "diff_order_book" _);
      [|simpl; tauto|done].
    rewrite (contains_needs_underscore "private-my_orders" _);
      [|simpl; tauto|done].
    unfold mbind, M_bind, mret, M_ret.
    destruct (handleTrade message this) as [[] this1 log1|e this1 log1];
      [|done].
    by rewrite !app_nil_r.
  - assert (Hrest : Js.contains "_" (market_id market +:+ String "-" userId)
                    = false).
    { apply contains_underscore_app; [done|].
      by apply contains_underscore_cons. }
    unfold handleSubject. rewrite Hchannel.
    unfold methods, handleSubject_loop, Js.contains. simpl.
    rewrite (contains_needs_underscore "live_trades" _);
      [|simpl; tauto|done].
    rewrite (contains_needs_underscore "diff_order_book" _);
      [|simpl; tauto|done].
    unfold mbind, M_bind, mret, M_ret.
    destruct (handleOrders message this) as [[] this1 log1|e this1 log1];
      [|done].
    by rewrite !app_nil_r.
Qed.

(** X17. An error message of the exchange is looked at before anything
    else: with code 4009 handleMessage throws AuthenticationError without
    calling a handler, changing [this] or emitting an event, whatever its
    channel; with any other code, or none, it is not an error for
    handleMessage and goes on to handleSubject like a data message. *)
Theorem handleMessage_error (this : Exchange) (message : Message) :
  m_event message = Some "bts:error"%string →
  let outcome :=
    handleMessage safeSymbol iso8601 handleTrade handleOrders message this in
  (d_code (m_data message) = Some 4009 →
   outcome = Thrown AuthenticationError this [])
  ∧ (d_code (m_data message) ≠ Some 4009 →
     outcome
     = handleSubject safeSymbol iso8601 handleTrade handleOrders message this).
Proof.
  intros Hevent outcome. subst outcome.
  unfold handleMessage, mbind, M_bind, handleErrorMessage, Js.str_eq.
  rewrite Hevent, bool_decide_eq_true_2 by done.
  split.
  - by intros ->.
  - intros Hcode.
    assert (Hnone : d_code (m_data message) ≫= exceptions_exact = None).
    { destruct (d_code (m_data message)) as [code|]; [|done]. simpl.
      unfold exceptions_exact.
      destruct (Z.eqb_spec code 4009) as [->|]; [done|done]. }
    rewrite Hnone. cbn [mret M_ret].
    rewrite bool_decide_eq_false_2 by done.
    by destruct (handleSubject _ _ _ _ message this).
Qed.

(** X18. A subscription acknowledgment never reaches the handlers of the
    subjects and emits nothing. On a channel without 'order_book' it
    changes nothing at all; without a channel it throws a TypeError; and
    handling the same acknowledgment a second time leaves the state as the
    first time left it. *)
Theorem acknowledgment_reaches_no_handler (this : Exchange)
    (message : Message) :
  m_event message = Some "bts:subscription_succeeded"%string →
  let handle :=
    handleMessage safeSymbol iso8601 handleTrade handleOrders message in
  handle this = handleSubscriptionStatus safeSymbol message this
  ∧ log_of (handle this) = []
  ∧ (∀ channel, m_channel message = Some channel →
                Js.contains "order_book" channel = false →
                handle this = Returned tt this [])
  ∧ (m_channel message = None → handle this = Thrown TypeError this [])
  ∧ state_of (handle (state_of (handle this))) = state_of (handle this).
Proof.
  intros Hevent handle.
  assert (Hstatus :
    ∀ this',
      handle this' = handleSubscriptionStatus safeSymbol message this').
  { intros this'. subst handle. unfold handleMessage, mbind, M_bind.
    rewrite handleErrorMessage_no_error by (rewrite Hevent; congruence).
    unfold Js.str_eq. rewrite bool_decide_eq_true_2 by done.
    by destruct (handleSubscriptionStatus safeSymbol message this'). }
  rewrite !Hstatus. split; [done|].
  unfold handleSubscriptionStatus, handleOrderBookSubscription.
  destruct (m_channel message) as [channel|] eqn:Hchannel.
  - destruct (Js.contains "order_book" channel) eqn:Hc; cbn [state_of log_of].
    + split; [done|]. split; [intros ? [= <-] ?; congruence|].
      split; [done|].
      unfold set_orderbooks. simpl. by rewrite insert_insert_eq.
    + by repeat split.
  - by repeat split.
Qed.

End Channels.

(** The market btcusd and a delta on its channel. *)
Lemma watchOrderBook_channel_round_trip_witness :
  handleMessage Scenario.safeSymbol Scenario.iso8601 Scenario.ignore
    Scenario.ignore (Scenario.diff 11 [[100; 0]] []) Scenario.live
  = handleOrderBook Scenario.safeSymbol Scenario.iso8601
      (Scenario.diff 11 [[100; 0]] []) Scenario.live.
Proof.
  refine (proj1 (proj2 (watchOrderBook_channel_round_trip Scenario.safeSymbol
            Scenario.iso8601 Scenario.ignore Scenario.ignore
            (mkMarket "btcusd" "btcusd") (Scenario.diff 11 [[100; 0]] [])
            Scenario.live _ _ _ _))); (reflexivity || discriminate).
Defined.

(** The market id btc_usd is cut to btc. *)
Lemma market_id_cut_at_underscore_witness :
  symbolOfChannel Scenario.safeSymbol
    (sub_channel (watchOrderBook (mkMarket "btc_usd" "BTC/USD")))
  = "btc"%string.
Proof.
  exact (market_id_cut_at_underscore Scenario.safeSymbol "btc" "usd" "BTC/USD"
           eq_refl).
Defined.

(** A trade message for btcusd, with a handler of trades that throws. *)
Lemma trade_and_order_channels_routing_witness :
  let message :=
    mkMessage (Some "trade"%string) (Some "live_trades_btcusd"%string)
      (mkDelta None None None None None) in
  handleSubject Scenario.safeSymbol Scenario.iso8601
    (λ _, throw TypeError) Scenario.ignore message Scenario.live
  = Thrown TypeError Scenario.live [].
Proof.
  intros message.
  refine (proj1 (trade_and_order_channels_routing Scenario.safeSymbol
            Scenario.iso8601 (λ _, throw TypeError) Scenario.ignore
            (mkMarket "btcusd" "btcusd") "4848701" message Scenario.live
            _ _) _); reflexivity.
Defined.

(** The error message of the source, 'Connection is unauthorized'. *)
Lemma handleMessage_error_witness :
  let message :=
    mkMessage (Some "bts:error"%string) (Some ""%string)
      (mkDelta None None None None (Some 4009)) in
  handleMessage Scenario.safeSymbol Scenario.iso8601 Scenario.ignore
    Scenario.ignore message Scenario.live
  = Thrown AuthenticationError Scenario.live [].
Proof.
  intros message.
  refine (proj1 (handleMessage_error Scenario.safeSymbol Scenario.iso8601
            Scenario.ignore Scenario.ignore Scenario.live message _) _);
    reflexivity.
Defined.

(** The acknowledgment of the private orders channel of the source. *)
Lemma acknowledgment_reaches_no_handler_witness :
  let message :=
    mkMessage (Some "bts:subscription_succeeded"%string)
      (Some "private-my_orders_ltcusd-4848701"%string)
      (mkDelta None None None None None) in
  handleMessage Scenario.safeSymbol Scenario.iso8601 Scenario.ignore
    Scenario.ignore message Scenario.live
  = Returned tt Scenario.live [].
Proof.
  intros message.
  refine (proj1 (proj2 (proj2 (acknowledgment_reaches_no_handler
            Scenario.safeSymbol Scenario.iso8601 Scenario.ignore
            Scenario.ignore Scenario.live message _)))
            "private-my_orders_ltcusd-4848701"%string _ _); reflexivity.
Defined.

(** ** authenticate: when the token endpoint is asked *)

Section Authenticate.

Variable sum : Z → option Z → option Z.

(** this.sum adds two numbers. *)
Hypothesis sum_numbers_add : ∀ a b, sum a (Some b) = Some (a + b).

(** X19. A session token is asked for once and then reused until it
    expires: after authenticate has stored a token at time [t] with a
    validity of [v] seconds, a call at any time up to [t + 1000 v]
    milliseconds asks nothing and changes nothing, and the first call
    after that time asks the token endpoint again. *)
Theorem authenticate_reuses_token (t v : Z) (response : TokenResponse)
    (options : Session) (tok : string) :
  expiresIn options = None ∨ (∃ e, expiresIn options = Some e ∧ e < t) →
  token response = Some tok →
  valid_sec response = Some v →
  let session := (authenticate sum t response options).1 in
  (authenticate sum t response options).2 = true
  ∧ wsSessionToken session = Some tok
  ∧ userId session = user_id response
  ∧ expiresIn session = Some (t + v * 1000)
  ∧ ∀ t' response',
      (t' ≤ t + v * 1000 →
       authenticate sum t' response' session = (session, false))
      ∧ (t + v * 1000 < t' →
         (authenticate sum t' response' session).2 = true).
Proof.
  intros Hexpired Htoken Hvalid session.
  assert (Hask : bool_decide (expiresIn options = None)
                 || Js.lt (expiresIn options) (Some t) = true).
  { destruct Hexpired as [->|(e & -> & He)]; [done|]. simpl. lia. }
  assert (Hsession : authenticate sum t response options
                     = (mkSession (Some (t + v * 1000)) (user_id response)
                          (Some tok), true)).
  { unfold authenticate. rewrite Hask, Htoken, Hvalid. simpl.
    by rewrite sum_numbers_add. }
  subst session. rewrite Hsession. simpl.
  repeat (split; [done|]).
  intros t' response'. unfold authenticate. simpl. split; intros Ht'.
  - by destruct (Z.ltb_spec (t + v * 1000) t'); [lia|].
  - destruct (Z.ltb_spec (t + v * 1000) t'); [|lia].
    by destruct (token response').
Qed.

(** X20. A failed refresh is not remembered: when the token endpoint
    answers without a token, authenticate leaves the session as it was, so
    that every later call asks again as long as no token is obtained. *)
Theorem authenticate_without_token (t t' : Z)
    (response response' : TokenResponse) (options : Session) :
  expiresIn options = None ∨ (∃ e, expiresIn options = Some e ∧ e < t) →
  token response = None →
  t ≤ t' →
  authenticate sum t response options = (options, true)
  ∧ (authenticate sum t' response' options).2 = true.
Proof.
  intros Hexpired Htoken Hlater.
  assert (Hask : ∀ now, t ≤ now →
            bool_decide (expiresIn options = None)
            || Js.lt (expiresIn options) (Some now) = true).
  { intros now Hnow.
    destruct Hexpired as [->|(e & -> & He)]; [done|]. simpl. lia. }
  unfold authenticate. rewrite !Hask by lia. rewrite Htoken.
  split; [done|]. by destruct (token response').
Qed.

End Authenticate.

(** A new session, the response of the source (valid for 60 seconds) at
    time 1000, and a second call at time 61000. *)
Lemma authenticate_reuses_token_witness :
  let response :=
    mkTokenResponse (Some "siPaT4m6VGQCdsDCVbLBemiphHQs552e"%string)
      (Some "4848701"%string) (Some 60) in
  let session := (authenticate sum_numbers 1000 response no_session).1 in
  authenticate sum_numbers 61000 response session = (session, false).
Proof.
  intros response session.
  refine (proj1 (proj2 (proj2 (proj2 (proj2 (authenticate_reuses_token
            sum_numbers _ 1000 60 response no_session
            "siPaT4m6VGQCdsDCVbLBemiphHQs552e" _ _ _)))) 61000 response) _).
  - intros a b. unfold sum_numbers. reflexivity.
  - left. reflexivity.
  - reflexivity.
  - reflexivity.
  - lia.
Defined.

(** A new session and an answer without token. *)
Lemma authenticate_without_token_witness :
  authenticate sum_numbers 1000 (mkTokenResponse None None None) no_session
  = (no_session, true).
Proof.
  refine (proj1 (authenticate_without_token sum_numbers 1000 2000
            (mkTokenResponse None None None) (mkTokenResponse None None None)
            no_session _ _ _)).
  - left. reflexivity.
  - reflexivity.
  - lia.
Defined.
